(** * Storage-state tools of playwright-mcp: save and load of a browser
      context's cookies and localStorage (src/tools/storage.ts).

    The two tool actions are embedded as computations over an explicit
    world (one browser tab and one disk).  Every call the source makes on
    a collaborator (Playwright's page and browser context, Node's fs) is
    recorded in a trace, so that ordering properties can be stated on the
    trace and frame properties on the world.

    The file read by the load tool is untyped: [JSON.parse] yields an
    arbitrary JavaScript value and the source inspects it with property
    reads, truthiness tests, [length > 0] comparisons and [for ... of].
    These are modelled on a datatype of JavaScript values with the
    coercions of the language written out. *)

From stdpp Require Import base numbers list option strings gmap.
From Stdlib Require Import QArith Qabs.

Set Warnings "-register-all".

Local Open Scope Z_scope.

(** ** JavaScript strings and values *)

(** A JavaScript string is a sequence of UTF-16 code units.  [js] turns
    an ASCII literal into one. *)
Abbreviation jsstring := (list N).

Definition js (s : string) : jsstring :=
  map Ascii.N_of_ascii (String.list_ascii_of_string s).
Arguments js : simpl never.

(** What an awaited call can throw.  [Rejected] carries the message of an
    error raised by a collaborator (browser, page or file system). *)
Inductive error :=
| SyntaxError
| TypeError
| NoCurrentTab
| Rejected (msg : jsstring).

Inductive result (A : Type) :=
| Ok (a : A)
| Err (e : error).
Arguments Ok {A} a.
Arguments Err {A} e.

#[global] Instance result_ret : MRet result := @Ok.
#[global] Instance result_bind : MBind result := λ A B k r,
  match r with
  | Ok a => k a
  | Err e => Err e
  end.
#[global] Instance result_fmap : FMap result := λ A B f r,
  match r with
  | Ok a => Ok (f a)
  | Err e => Err e
  end.

(** Values that [JSON.parse] builds, with [undefined] for absent
    properties.  [VObj] lists the own properties of a plain object in
    creation order (keys are distinct); numbers are the exact rationals
    that the JSON literals denote. *)
Inductive value :=
| VUndefined
| VNull
| VBool (b : bool)
| VNum (q : Q)
| VStr (s : jsstring)
| VArr (elems : list value)
| VObj (props : list (jsstring * value)).

(** Own-property lookup. *)
Fixpoint own (props : list (jsstring * value)) (k : jsstring) : option value :=
  match props with
  | [] => None
  | (k', v) :: rest => if decide (k' = k) then Some v else own rest k
  end.

(** The property names the tools read.  None of them is defined on
    [Object.prototype], [Array.prototype], [String.prototype],
    [Number.prototype] or [Boolean.prototype], so a read finds an own
    property or [undefined]. *)
Inductive propname :=
| P_cookies | P_origins | P_origin | P_localStorage | P_length | P_name | P_value.

Definition propname_str (p : propname) : jsstring :=
  match p with
  | P_cookies => js "cookies"
  | P_origins => js "origins"
  | P_origin => js "origin"
  | P_localStorage => js "localStorage"
  | P_length => js "length"
  | P_name => js "name"
  | P_value => js "value"
  end.

Definition Number_ofNat (n : nat) : Q := inject_Z (Z.of_nat n).

(** [v.p]: throws on [null] and [undefined]; primitives are read through
    their wrapper, where only strings have a [length]. *)
Definition Get (v : value) (p : propname) : result value :=
  match v with
  | VUndefined | VNull => Err TypeError
  | VBool _ | VNum _ => Ok VUndefined
  | VStr s =>
      Ok (match p with P_length => VNum (Number_ofNat (length s)) | _ => VUndefined end)
  | VArr l =>
      Ok (match p with P_length => VNum (Number_ofNat (length l)) | _ => VUndefined end)
  | VObj props => Ok (default VUndefined (own props (propname_str p)))
  end.

(** A binary64 is a zero exactly when the literal's magnitude is at most
    2^-1075 (round to nearest, ties to even). *)
Definition Number_isZero (q : Q) : bool :=
  Qle_bool (Qabs q) (1 # 2 ^ 1075).

Definition Number_gt0 (q : Q) : bool :=
  negb (Qle_bool q (1 # 2 ^ 1075)).

(** ToBoolean. *)
Definition ToBoolean (v : value) : bool :=
  match v with
  | VUndefined | VNull => false
  | VBool b => b
  | VNum q => negb (Number_isZero q)
  | VStr s => match s with [] => false | _ => true end
  | VArr _ | VObj _ => true
  end.

(** Builtins of the language that the tools reach but that are not
    spelled out here: the JSON codec and the conversions between numbers
    and strings. *)
Class Builtins := {
  (** [JSON.parse]; [None] is a thrown [SyntaxError]. *)
  JSON_parse : jsstring -> option value;
  (** [JSON.stringify(v, null, 2)]; [None] is the result [undefined]. *)
  JSON_stringify : value -> option jsstring;
  (** [Number.prototype.toString]. *)
  Number_toString : Q -> jsstring;
  (** whether [StringToNumber(s) > 0]. *)
  String_gt0 : jsstring -> bool
}.

Section Coercions.
Context `{Builtins}.

(** ToString.  A plain object converts through [Object.prototype.toString]
    unless it has an own (hence not callable) [toString] property, in
    which case OrdinaryToPrimitive finds no primitive and throws.  An
    array converts through [join]. *)
Fixpoint ToString (v : value) : result jsstring :=
  match v with
  | VUndefined => Ok (js "undefined")
  | VNull => Ok (js "null")
  | VBool true => Ok (js "true")
  | VBool false => Ok (js "false")
  | VNum q => Ok (Number_toString q)
  | VStr s => Ok s
  | VArr l =>
      (fix join (l : list value) : result jsstring :=
         match l with
         | [] => Ok []
         | x :: rest =>
             s ← match x with
                 | VUndefined | VNull => Ok []
                 | _ => ToString x
                 end;
             match rest with
             | [] => Ok s
             | _ => r ← join rest; Ok (s ++ js "," ++ r)
             end
         end) l
  | VObj props =>
      match own props (js "toString") with
      | Some _ => Err TypeError
      | None => Ok (js "[object Object]")
      end
  end.

(** [v > 0]. *)
Definition GreaterThanZero (v : value) : result bool :=
  match v with
  | VUndefined | VNull => Ok false
  | VBool b => Ok b
  | VNum q => Ok (Number_gt0 q)
  | VStr s => Ok (String_gt0 s)
  | VArr _ => s ← ToString v; Ok (String_gt0 s)
  | VObj props =>
      match own props (js "toString") with
      | Some _ => Err TypeError
      | None => Ok false
      end
  end.

(** The guard [x && x.length > 0], as the condition of an [if]. *)
Definition nonempty_guard (x : value) : result bool :=
  if ToBoolean x
  then len ← Get x P_length; GreaterThanZero len
  else Ok false.

End Coercions.

(** [String.prototype.startsWith] on an already converted search string. *)
Fixpoint startsWith (s search : jsstring) : bool :=
  match search, s with
  | [], _ => true
  | c :: search', d :: s' => if decide (c = d) then startsWith s' search' else false
  | _ :: _, [] => false
  end.

(** The iteration protocol: arrays yield their elements, strings their
    code points; nothing else that JSON can produce is iterable. *)
Definition is_high_surrogate (c : N) : bool := ((55296 <=? c) && (c <=? 56319))%N.
Definition is_low_surrogate (c : N) : bool := ((56320 <=? c) && (c <=? 57343))%N.

Fixpoint code_points (s : jsstring) : list value :=
  match s with
  | [] => []
  | c :: rest =>
      match rest with
      | d :: rest' =>
          if is_high_surrogate c && is_low_surrogate d
          then VStr [c; d] :: code_points rest'
          else VStr [c] :: code_points rest
      | [] => [VStr [c]]
      end
  end.

Definition iterate (v : value) : result (list value) :=
  match v with
  | VArr l => Ok l
  | VStr s => Ok (code_points s)
  | _ => Err TypeError
  end.

(** ** Node's [path.dirname] (POSIX flavour)

    Scanning from the right and never looking at index 0: trailing
    slashes are skipped, then the last component, and the path is cut at
    the slash before it. *)
Definition slash : N := 47%N.

Fixpoint skip_slashes (r : jsstring) : jsstring :=
  match r with
  | c :: r' => if decide (c = slash) then skip_slashes r' else r
  | [] => []
  end.

Fixpoint skip_component (r : jsstring) : jsstring :=
  match r with
  | c :: r' => if decide (c = slash) then r else skip_component r'
  | [] => []
  end.

Definition path_dirname (p : jsstring) : jsstring :=
  match p with
  | [] => js "."
  | c0 :: rest =>
      let hasRoot := bool_decide (c0 = slash) in
      match skip_component (skip_slashes (rev rest)) with
      | [] => if hasRoot then js "/" else js "."
      | _ :: before =>
          if hasRoot && bool_decide (before = []) then js "//"
          else c0 :: rev before
      end
  end.

(** ** Collaborators *)

(** The localStorage area of the page a script runs in. *)
Abbreviation storage := (gmap jsstring jsstring).

(** The functions the tools hand to [page.evaluate]; there is one, the
    arrow function in [loadStorageState] (see [setItems] for what it
    does in the page). *)
Inductive page_function :=
| SetItems.

(** What [page.evaluate] accepts as its first argument: source text, or a
    function, which Playwright ships to the page together with the
    serialized argument. *)
Inductive page_script :=
| ScriptSource (code : jsstring)
| ScriptFunction (f : page_function).

(** The tab the tools drive, with the browser context of its page.  A
    call that rejects may still have changed the session. *)
Class Browser (S : Type) := {
  (** [browserContext.storageState()], a query *)
  br_storageState : S -> result value;
  (** [browserContext.addCookies(cookies)] *)
  br_addCookies : value -> S -> result unit * S;
  (** [page.url()] *)
  br_url : S -> jsstring;
  (** [page.goto(url)] *)
  br_goto : value -> S -> result unit * S;
  (** [page.evaluate(pageFunction, arg)] *)
  br_evaluate : page_script -> value -> S -> result unit * S
}.

(** [fs/promises].  [fs_writeFile] is the call with the default flag
    ['w'] and encoding ['utf-8']. *)
Class FileSystem (D : Type) := {
  fs_readFile : jsstring -> D -> result jsstring;
  fs_mkdir : jsstring -> bool -> D -> result unit * D;
  fs_writeFile : jsstring -> jsstring -> D -> result unit * D
}.

(** The calls a tool action issues, as they appear in the trace. *)
Inductive call :=
| CReadFile (path : jsstring)
| CMkdir (dir : jsstring) (recursive : bool)
| CWriteFile (path : jsstring) (data : option jsstring)
| CStorageState
| CAddCookies (cookies : value)
| CUrl
| CGoto (url : value)
| CEvaluate (script : page_script) (arg : value).

(** The calls that can change cookies, location or storage. *)
Definition session_mutating (c : call) : Prop :=
  match c with
  | CAddCookies _ | CGoto _ | CEvaluate _ _ => True
  | _ => False
  end.

Definition session_call (c : call) : Prop :=
  match c with
  | CStorageState | CAddCookies _ | CUrl | CGoto _ | CEvaluate _ _ => True
  | _ => False
  end.

Definition outcome {A} (r : result A) : option error :=
  match r with
  | Ok _ => None
  | Err e => Some e
  end.

Record params := { path : jsstring }.

(** The tool context: whether a tab is current. *)
Record context := { hasCurrentTab : bool }.

Definition currentTabOrDie (ctx : context) : result unit :=
  if hasCurrentTab ctx then Ok () else Err NoCurrentTab.

(** The [type] a tool declares in its schema. *)
Inductive tool_type :=
| ReadOnly
| Destructive.

(** The schema of a tool; its [inputSchema], an object with a string
    [path], is the type [params]. *)
Record tool_schema := ToolSchema {
  name : jsstring;
  title : jsstring;
  description : jsstring;
  type : tool_type
}.

Section Tools.
Context `{Builtins} {S D : Type} `{Browser S} `{FileSystem D}.

Record world := World { session : S; disk : D }.

(** One entry of the trace: the call, the session it was issued on, and
    the error it rejected with, if any. *)
Record event := Event { ev_call : call; ev_at : S; ev_error : option error }.

(** ** The monad of tool actions: state, exceptions and a trace *)
Definition M (A : Type) : Type := world -> result A * world * list event.

#[global] Instance M_ret : MRet M := λ A a w, (Ok a, w, []).
#[global] Instance M_bind : MBind M := λ A B k m w,
  match m w with
  | (Ok a, w1, t1) => let '(r, w2, t2) := k a w1 in (r, w2, t1 ++ t2)
  | (Err e, w1, t1) => (Err e, w1, t1)
  end.

(** A computation of the language itself: no call is issued. *)
Definition lift {A} (r : result A) : M A := λ w, (r, w, []).

Definition on_session {A} (c : call) (op : S -> result A * S) : M A := λ w,
  let '(r, s') := op (session w) in
  (r, World s' (disk w), [Event c (session w) (outcome r)]).

Definition on_disk {A} (c : call) (op : D -> result A * D) : M A := λ w,
  let '(r, d') := op (disk w) in
  (r, World (session w) d', [Event c (session w) (outcome r)]).

Definition browserContext_storageState : M value :=
  on_session CStorageState (λ s, (br_storageState s, s)).

Definition browserContext_addCookies (cookies : value) : M unit :=
  on_session (CAddCookies cookies) (br_addCookies cookies).

Definition page_url : M jsstring :=
  on_session CUrl (λ s, (Ok (br_url s), s)).

Definition page_goto (url : value) : M unit :=
  on_session (CGoto url) (br_goto url).

Definition page_evaluate (script : page_script) (arg : value) : M unit :=
  on_session (CEvaluate script arg) (br_evaluate script arg).

Definition fsp_readFile (p : jsstring) : M jsstring :=
  on_disk (CReadFile p) (λ d, (fs_readFile p d, d)).

Definition fsp_mkdir (dir : jsstring) (recursive : bool) : M unit :=
  on_disk (CMkdir dir recursive) (fs_mkdir dir recursive).

(** [fs.writeFile] validates its data before it opens the file: data that
    is not a string rejects with a [TypeError] and the disk is not
    touched. *)
Definition fsp_writeFile (p : jsstring) (data : option jsstring) : M unit :=
  on_disk (CWriteFile p data)
    (λ d, match data with
          | Some text => fs_writeFile p text d
          | None => (Err TypeError, d)
          end).

(** [for (const x of l) body] with an awaiting body. *)
Fixpoint forOf (l : list value) (body : value -> M unit) : M unit :=
  match l with
  | [] => mret ()
  | x :: rest => body x;; forOf rest body
  end.

(** What a tool's [handle] returns. *)
Record tool_result := ToolResult {
  code : list jsstring;
  action : M jsstring;
  captureSnapshot : bool;
  waitForNetwork : bool
}.

(** ** [saveStorageState] *)

Definition saveStorageState_action (p : params) : M jsstring :=
  storageState ← browserContext_storageState;
  let dir := path_dirname (path p) in
  fsp_mkdir dir true;;
  fsp_writeFile (path p) (JSON_stringify storageState);;
  mret (js "Storage state saved to " ++ path p).

Definition saveStorageState (ctx : context) (p : params) : result tool_result :=
  tab ← currentTabOrDie ctx;
  Ok {| code := [ js "// Save storage state to " ++ path p;
                  js "await context.storageState({ path: '" ++ path p ++ js "' });" ];
        action := saveStorageState_action p;
        captureSnapshot := false;
        waitForNetwork := false |}.

(** ** [loadStorageState] *)

(** [localStorage.setItem(k, v)] on strings. *)
Definition localStorage_setItem (k v : jsstring) (st : storage) : storage :=
  <[k := v]> st.

(** The two arguments of [setItem] for one item, [item.name] and
    [item.value], as the strings the call converts them to. *)
Definition setItem_args (item : value) : result (jsstring * jsstring) :=
  name ← Get item P_name;
  val ← Get item P_value;
  k ← ToString name;
  v ← ToString val;
  Ok (k, v).

Fixpoint setItems_loop (items : list value) (st : storage) : result unit * storage :=
  match items with
  | [] => (Ok (), st)
  | item :: rest =>
      match setItem_args item with
      | Ok (k, v) => setItems_loop rest (localStorage_setItem k v st)
      | Err e => (Err e, st)
      end
  end.

(** The function handed to [page.evaluate]:
    [items => { for (const item of items) localStorage.setItem(item.name, item.value) }].
    Items written before an exception stay written. *)
Definition setItems (items : value) (st : storage) : result unit * storage :=
  match iterate items with
  | Ok l => setItems_loop l st
  | Err e => (Err e, st)
  end.

(** The value that the last item of [items] naming [k] gives it. *)
Fixpoint last_write (items : list value) (k : jsstring) : option jsstring :=
  match items with
  | [] => None
  | item :: rest =>
      match last_write rest k with
      | Some v => Some v
      | None =>
          match setItem_args item with
          | Ok (k', v) => if decide (k' = k) then Some v else None
          | Err _ => None
          end
      end
  end.

(** What a function does to the localStorage of the page it is evaluated
    in, given its argument. *)
Definition page_function_run (f : page_function)
  : value -> storage -> result unit * storage :=
  match f with
  | SetItems => setItems
  end.

(** The set of origins the source builds before its main loop.  The set
    is never read; building it still throws when [origins] is not
    iterable or holds a [null]. *)
Fixpoint collect_origins (l : list value) (origins : list value) : result (list value) :=
  match l with
  | [] => Ok origins
  | origin :: rest => o ← Get origin P_origin; collect_origins rest (origins ++ [o])
  end.

(** The body of the main loop, for one entry [originData]. *)
Definition restoreOrigin (originData : value) : M unit :=
  origin ← lift (Get originData P_origin);
  currentUrl ← page_url;
  search ← lift (ToString origin);
  (if negb (startsWith currentUrl search) then page_goto origin else mret ());;
  localStorage ← lift (Get originData P_localStorage);
  inject ← lift (nonempty_guard localStorage);
  if (inject : bool) then page_evaluate (ScriptFunction SetItems) localStorage else mret ().

Definition loadStorageState_action (p : params) : M jsstring :=
  storageStateJson ← fsp_readFile (path p);
  storageState ← lift (match JSON_parse storageStateJson with
                       | Some v => Ok v
                       | None => Err SyntaxError
                       end);
  cookies ← lift (Get storageState P_cookies);
  hasCookies ← lift (nonempty_guard cookies);
  (if (hasCookies : bool) then browserContext_addCookies cookies else mret ());;
  origins ← lift (Get storageState P_origins);
  lift (if ToBoolean origins
        then l ← iterate origins; collect_origins l []
        else Ok []);;
  entries ← lift (iterate (if ToBoolean origins then origins else VArr []));
  forOf entries restoreOrigin;;
  mret (js "Storage state loaded from " ++ path p).

Definition loadStorageState (capture : bool) (ctx : context) (p : params)
  : result tool_result :=
  tab ← currentTabOrDie ctx;
  Ok {| code := [ js "// Load storage state from " ++ path p;
                  js "// Note: In Playwright, storage state is typically loaded when creating a new context" ];
        action := loadStorageState_action p;
        captureSnapshot := capture;
        waitForNetwork := true |}.

(** ** The two tools

    The object each factory hands to [defineTool].  The factory of the
    save tool does not use its argument. *)
Record tool := Tool {
  capability : jsstring;
  schema : tool_schema;
  handle : context -> params -> result tool_result
}.

Definition saveStorageState_tool (capture : bool) : tool :=
  {| capability := js "core";
     schema :=
       {| name := js "browser_save_storage_state";
          title := js "Save browser storage state";
          description :=
            js "Save the current browser storage state (cookies, localStorage, sessionStorage) to a file";
          type := ReadOnly |};
     handle := saveStorageState |}.

Definition loadStorageState_tool (capture : bool) : tool :=
  {| capability := js "core";
     schema :=
       {| name := js "browser_load_storage_state";
          title := js "Load browser storage state";
          description :=
            js "Load browser storage state (cookies, localStorage, sessionStorage) from a file";
          type := Destructive |};
     handle := loadStorageState capture |}.

(** The objects of the two factories, in the order in which the default
    export lists them. *)
Definition storage_tools (capture : bool) : list tool :=
  [saveStorageState_tool capture; loadStorageState_tool capture].

End Tools.

(** ** A concrete runtime, browser and disk

    The properties below are proved for every instance of [Builtins],
    [Browser] and [FileSystem].  The instances of this module make them
    executable: a JSON codec, a tab that follows a table of redirects, and
    a disk that is a tree of directories and text files. *)

Module Sim.

(** *** JSON text *)

Definition is_ws (c : N) : bool :=
  bool_decide (c = 32 ∨ c = 9 ∨ c = 10 ∨ c = 13)%N.

Fixpoint skip_ws (s : jsstring) : jsstring :=
  match s with
  | c :: r => if is_ws c then skip_ws r else s
  | [] => []
  end.

Definition is_digit (c : N) : bool := ((48 <=? c) && (c <=? 57))%N.

Fixpoint take_digits (s : jsstring) : list N * jsstring :=
  match s with
  | c :: r =>
      if is_digit c
      then let '(ds, r') := take_digits r in ((c - 48)%N :: ds, r')
      else ([], s)
  | [] => ([], [])
  end.

Definition digits_value (ds : list N) : Z :=
  foldl (λ acc d, 10 * acc + Z.of_N d) 0 ds.

Definition pow10 (e : Z) : Q :=
  match e with
  | Z0 => 1%Q
  | Zpos p => inject_Z (10 ^ Zpos p)
  | Zneg p => (1 # 10 ^ p)%Q
  end.

(** [-? int frac? exp?] where [int] has no superfluous leading zero. *)
Definition parse_number (s : jsstring) : option (Q * jsstring) :=
  let '(neg, s) := match s with
                   | 45%N :: r => (true, r)
                   | _ => (false, s)
                   end in
  let '(int, s) := take_digits s in
  match int with
  | [] => None
  | d :: more =>
      if bool_decide (d = 0%N) && bool_decide (more ≠ []) then None else
      frac_s ← match s with
               | 46%N :: r =>
                   let '(frac, r') := take_digits r in
                   if bool_decide (frac = []) then None else Some (frac, r')
               | _ => Some ([], s)
               end;
      let '(frac, s) := frac_s in
      exp_s ← match s with
              | c :: r =>
                  if bool_decide (c = 101 ∨ c = 69)%N then
                    let '(eneg, r) := match r with
                                      | 45%N :: r' => (true, r')
                                      | 43%N :: r' => (false, r')
                                      | _ => (false, r)
                                      end in
                    let '(ds, r') := take_digits r in
                    if bool_decide (ds = []) then None
                    else Some (if eneg then - digits_value ds else digits_value ds, r')
                  else Some (0, s)
              | [] => Some (0, s)
              end;
      let '(e, s) := exp_s in
      let mant := digits_value (int ++ frac) in
      let q := (inject_Z (if neg then - mant else mant)
                * pow10 (e - Z.of_nat (length frac)))%Q in
      Some (Qred q, s)
  end.

Definition hex_digit (c : N) : option N :=
  if is_digit c then Some (c - 48)%N
  else if ((97 <=? c) && (c <=? 102))%N then Some (c - 87)%N
  else if ((65 <=? c) && (c <=? 70))%N then Some (c - 55)%N
  else None.

(** The characters after an opening quote, up to the closing one. *)
Fixpoint parse_string (s : jsstring) : option (jsstring * jsstring) :=
  match s with
  | [] => None
  | c :: r =>
      if bool_decide (c = 34%N) then Some ([], r)
      else if bool_decide (c < 32)%N then None
      else if bool_decide (c = 92%N) then
        match r with
        | e :: r1 =>
            if bool_decide (e = 117%N) then
              match r1 with
              | h1 :: h2 :: h3 :: h4 :: r2 =>
                  a ← hex_digit h1; b ← hex_digit h2;
                  c ← hex_digit h3; d ← hex_digit h4;
                  '(str, rest) ← parse_string r2;
                  Some ((((a * 16 + b) * 16 + c) * 16 + d)%N :: str, rest)
              | _ => None
              end
            else
              u ← (if bool_decide (e = 34%N) then Some 34
                   else if bool_decide (e = 92%N) then Some 92
                   else if bool_decide (e = 47%N) then Some 47
                   else if bool_decide (e = 98%N) then Some 8
                   else if bool_decide (e = 102%N) then Some 12
                   else if bool_decide (e = 110%N) then Some 10
                   else if bool_decide (e = 114%N) then Some 13
                   else if bool_decide (e = 116%N) then Some 9
                   else None)%N;
              '(str, rest) ← parse_string r1;
              Some (u :: str, rest)
        | [] => None
        end
      else
        '(str, rest) ← parse_string r;
        Some (c :: str, rest)
  end.

Fixpoint strip_prefix (pre s : jsstring) : option jsstring :=
  match pre, s with
  | [], _ => Some s
  | c :: pre', d :: s' => if decide (c = d) then strip_prefix pre' s' else None
  | _ :: _, [] => None
  end.

(** A repeated key keeps its place and takes the later value. *)
Fixpoint set_prop (props : list (jsstring * value)) (k : jsstring) (v : value)
  : list (jsstring * value) :=
  match props with
  | [] => [(k, v)]
  | (k', v') :: rest =>
      if decide (k' = k) then (k', v) :: rest else (k', v') :: set_prop rest k v
  end.

Fixpoint parse_value (fuel : nat) (s : jsstring) {struct fuel}
  : option (value * jsstring) :=
  match fuel with
  | O => None
  | Datatypes.S fuel' =>
      match skip_ws s with
      | [] => None
      | c :: r =>
          if bool_decide (c = 34%N) then
            '(str, r') ← parse_string r; Some (VStr str, r')
          else if bool_decide (c = 91%N) then
            match skip_ws r with
            | 93%N :: r' => Some (VArr [], r')
            | _ =>
                (fix elements (n : nat) (s : jsstring) (acc : list value) :=
                   match n with
                   | O => None
                   | Datatypes.S n' =>
                       '(v, s1) ← parse_value fuel' s;
                       match skip_ws s1 with
                       | 44%N :: s2 => elements n' s2 (acc ++ [v])
                       | 93%N :: s2 => Some (VArr (acc ++ [v]), s2)
                       | _ => None
                       end
                   end) (length r) r []
            end
          else if bool_decide (c = 123%N) then
            match skip_ws r with
            | 125%N :: r' => Some (VObj [], r')
            | _ =>
                (fix members (n : nat) (s : jsstring) (acc : list (jsstring * value)) :=
                   match n with
                   | O => None
                   | Datatypes.S n' =>
                       match skip_ws s with
                       | 34%N :: s0 =>
                           '(k, s1) ← parse_string s0;
                           match skip_ws s1 with
                           | 58%N :: s2 =>
                               '(v, s3) ← parse_value fuel' s2;
                               match skip_ws s3 with
                               | 44%N :: s4 => members n' s4 (set_prop acc k v)
                               | 125%N :: s4 => Some (VObj (set_prop acc k v), s4)
                               | _ => None
                               end
                           | _ => None
                           end
                       | _ => None
                       end
                   end) (length r) r []
            end
          else
            match strip_prefix (js "true") (c :: r) with
            | Some r' => Some (VBool true, r')
            | None =>
            match strip_prefix (js "false") (c :: r) with
            | Some r' => Some (VBool false, r')
            | None =>
            match strip_prefix (js "null") (c :: r) with
            | Some r' => Some (VNull, r')
            | None =>
                '(q, r') ← parse_number (c :: r); Some (VNum q, r')
            end end end
      end
  end.

Definition parse (s : jsstring) : option value :=
  '(v, rest) ← parse_value (Datatypes.S (length s)) s;
  match skip_ws rest with
  | [] => Some v
  | _ => None
  end.

(** *** JSON.stringify with an indentation of two spaces *)

Definition hex_char (d : N) : N := if (d <? 10)%N then (48 + d)%N else (87 + d)%N.

Definition escape_unit (c : N) : jsstring :=
  [92; 117; hex_char (c / 4096); hex_char ((c / 256) mod 16);
   hex_char ((c / 16) mod 16); hex_char (c mod 16)]%N.

(** Quotes, backslashes and control characters are escaped, and so are
    surrogates that are not part of a pair. *)
Fixpoint quote_body (s : jsstring) : jsstring :=
  match s with
  | [] => []
  | c :: r =>
      if bool_decide (c = 34%N) then [92; 34]%N ++ quote_body r
      else if bool_decide (c = 92%N) then [92; 92]%N ++ quote_body r
      else if bool_decide (c = 8%N) then [92; 98]%N ++ quote_body r
      else if bool_decide (c = 12%N) then [92; 102]%N ++ quote_body r
      else if bool_decide (c = 10%N) then [92; 110]%N ++ quote_body r
      else if bool_decide (c = 13%N) then [92; 114]%N ++ quote_body r
      else if bool_decide (c = 9%N) then [92; 116]%N ++ quote_body r
      else if bool_decide (c < 32)%N then escape_unit c ++ quote_body r
      else if is_high_surrogate c then
        match r with
        | d :: r' =>
            if is_low_surrogate d then c :: d :: quote_body r'
            else escape_unit c ++ quote_body r
        | [] => escape_unit c
        end
      else if is_low_surrogate c then escape_unit c ++ quote_body r
      else c :: quote_body r
  end.

Definition quote (s : jsstring) : jsstring := [34%N] ++ quote_body s ++ [34%N].

Fixpoint join_with (sep : jsstring) (parts : list jsstring) : jsstring :=
  match parts with
  | [] => []
  | [x] => x
  | x :: rest => x ++ sep ++ join_with sep rest
  end.

Section Stringify.
Variable number_toString : Q -> jsstring.

Fixpoint stringify (indent : jsstring) (v : value) : option jsstring :=
  let inner := indent ++ js "  " in
  match v with
  | VUndefined => None
  | VNull => Some (js "null")
  | VBool true => Some (js "true")
  | VBool false => Some (js "false")
  | VNum q => Some (number_toString q)
  | VStr s => Some (quote s)
  | VArr l =>
      let items :=
        (fix items (l : list value) : list jsstring :=
           match l with
           | [] => []
           | x :: rest => default (js "null") (stringify inner x) :: items rest
           end) l in
      match items with
      | [] => Some (js "[]")
      | _ => Some (js "[" ++ [10%N] ++ inner
                   ++ join_with (js "," ++ [10%N] ++ inner) items
                   ++ [10%N] ++ indent ++ js "]")
      end
  | VObj props =>
      let members :=
        (fix members (props : list (jsstring * value)) : list jsstring :=
           match props with
           | [] => []
           | (k, x) :: rest =>
               match stringify inner x with
               | Some text => (quote k ++ js ": " ++ text) :: members rest
               | None => members rest
               end
           end) props in
      match members with
      | [] => Some (js "{}")
      | _ => Some (js "{" ++ [10%N] ++ inner
                   ++ join_with (js "," ++ [10%N] ++ inner) members
                   ++ [10%N] ++ indent ++ js "}")
      end
  end.

End Stringify.

(** *** Numbers and strings

    Decimal notation of a rational: exact on integers, and on fractions
    with at most twenty decimals.  It is the language's notation for the
    integers below 10^21 and for short decimal fractions. *)
Fixpoint digits_of (fuel : nat) (n : N) (acc : jsstring) : jsstring :=
  match fuel with
  | O => acc
  | Datatypes.S fuel' =>
      let acc' := (48 + n mod 10)%N :: acc in
      if (n <? 10)%N then acc' else digits_of fuel' (n / 10) acc'
  end.

Definition N_toString (n : N) : jsstring :=
  digits_of (Datatypes.S (N.to_nat (N.log2 n))) n [].

Fixpoint fraction_digits (fuel : nat) (num den : N) : jsstring :=
  match fuel with
  | O => []
  | Datatypes.S fuel' =>
      if (num =? 0)%N then []
      else (48 + (10 * num) / den)%N :: fraction_digits fuel' ((10 * num) mod den) den
  end.

Definition number_toString (q : Q) : jsstring :=
  let q := Qred q in
  let n := Z.abs_N (Qnum q) in
  let d := Npos (Qden q) in
  let sign := if (Qnum q <? 0)%Z then js "-" else [] in
  let frac := fraction_digits 20 (n mod d) d in
  sign ++ N_toString (n / d) ++ match frac with [] => [] | _ => js "." ++ frac end.

Definition trim (s : jsstring) : jsstring :=
  rev (skip_ws (rev (skip_ws s))).

(** Whether a string denotes a number above zero.  Decimal literals in
    the JSON form and [Infinity] are recognised; every other string counts
    as not a number. *)
Definition string_gt0 (s : jsstring) : bool :=
  let t := trim s in
  if bool_decide (t = js "Infinity" ∨ t = js "+Infinity") then true
  else match parse_number t with
       | Some (q, []) => Number_gt0 q
       | _ => false
       end.

#[export] Instance builtins : Builtins := {|
  JSON_parse := parse;
  JSON_stringify := stringify number_toString [];
  Number_toString := number_toString;
  String_gt0 := string_gt0
|}.

(** *** A disk: directories and text files under normalised absolute
    paths (the root is the empty path and the working directory) *)

Inductive node :=
| Dir
| File (text : jsstring).

Abbreviation files := (gmap (list jsstring) node).

Fixpoint split_path (p : jsstring) : list jsstring :=
  match p with
  | [] => [[]]
  | c :: r =>
      if decide (c = slash) then [] :: split_path r
      else match split_path r with
           | comp :: rest => (c :: comp) :: rest
           | [] => [[c]]
           end
  end.

(** One component, walked from the directory [stack] (innermost first). *)
Definition walk (stack : list jsstring) (comp : jsstring) : list jsstring :=
  if bool_decide (comp = [] ∨ comp = js ".") then stack
  else if bool_decide (comp = js "..") then tail stack
  else comp :: stack.

Definition resolve (p : jsstring) : list jsstring :=
  rev (foldl walk [] (split_path p)).

Definition is_dir (d : files) (at_ : list jsstring) : bool :=
  match at_, d !! at_ with
  | [], _ => true
  | _, Some Dir => true
  | _, _ => false
  end.

Definition parent (at_ : list jsstring) : list jsstring := removelast at_.

(** Directories created before a failure stay. *)
Fixpoint mkdir_p (done rest : list jsstring) (d : files) : result unit * files :=
  match rest with
  | [] => (Ok (), d)
  | c :: rest' =>
      let here := done ++ [c] in
      match d !! here with
      | Some (File _) => (Err (Rejected (js "EEXIST")), d)
      | _ => mkdir_p here rest' (<[here := Dir]> d)
      end
  end.

Definition mkdir (p : jsstring) (recursive : bool) (d : files) : result unit * files :=
  let at_ := resolve p in
  if recursive then mkdir_p [] at_ d
  else if negb (is_dir d (parent at_)) then (Err (Rejected (js "ENOENT")), d)
  else if bool_decide (at_ = [] ∨ is_Some (d !! at_)) then (Err (Rejected (js "EEXIST")), d)
  else (Ok (), <[at_ := Dir]> d).

Definition writeFile (p text : jsstring) (d : files) : result unit * files :=
  let at_ := resolve p in
  if is_dir d at_ then (Err (Rejected (js "EISDIR")), d)
  else if negb (is_dir d (parent at_)) then (Err (Rejected (js "ENOENT")), d)
  else (Ok (), <[at_ := File text]> d).

Definition readFile (p : jsstring) (d : files) : result jsstring :=
  match d !! resolve p with
  | Some (File text) => Ok text
  | Some Dir => Err (Rejected (js "EISDIR"))
  | None => if is_dir d (resolve p) then Err (Rejected (js "EISDIR"))
            else Err (Rejected (js "ENOENT"))
  end.

#[export] Instance filesystem : FileSystem files := {|
  fs_readFile := readFile;
  fs_mkdir := mkdir;
  fs_writeFile := writeFile
|}.

(** *** A tab

    The network is a parameter: which cookies the browser accepts, where
    a navigation ends (after redirects, and depending on the cookies
    sent), and which storage area a page at a given URL sees. *)
Record web := Web {
  accepts : value -> bool;
  lands : list value -> value -> option jsstring;
  area_of : jsstring -> option jsstring
}.

Record tab := Tab {
  jar : list value;
  location : jsstring;
  areas : gmap jsstring storage
}.

Definition item_of (kv : jsstring * jsstring) : value :=
  VObj [(js "name", VStr kv.1); (js "value", VStr kv.2)].

Definition origin_state (a : jsstring * storage) : option value :=
  match map_to_list a.2 with
  | [] => None
  | kvs => Some (VObj [(js "origin", VStr a.1);
                       (js "localStorage", VArr (map item_of kvs))])
  end.

Definition storageState (t : tab) : result value :=
  Ok (VObj [(js "cookies", VArr (jar t));
            (js "origins", VArr (omap origin_state (map_to_list (areas t))))]).

Section Tab.
Context `{Builtins} (W : web).

Definition addCookies (cookies : value) (t : tab) : result unit * tab :=
  match cookies with
  | VArr l =>
      if forallb (accepts W) l
      then (Ok (), Tab (jar t ++ l) (location t) (areas t))
      else (Err (Rejected (js "browserContext.addCookies: invalid cookie")), t)
  | _ => (Err (Rejected (js "browserContext.addCookies: expected array")), t)
  end.

Definition goto (url : value) (t : tab) : result unit * tab :=
  match lands W (jar t) url with
  | Some final => (Ok (), Tab (jar t) final (areas t))
  | None => (Err (Rejected (js "page.goto: navigation failed")), t)
  end.

(** A function runs against the storage area of the current page; what
    it wrote before throwing stays.  Source text is not interpreted. *)
Definition evaluate (script : page_script) (arg : value) (t : tab) : result unit * tab :=
  match script with
  | ScriptSource _ => (Err (Rejected (js "page.evaluate: source text")), t)
  | ScriptFunction f =>
      match area_of W (location t) with
      | None => (Err (Rejected (js "page.evaluate: SecurityError")), t)
      | Some a =>
          let '(r, st) := page_function_run f arg (default ∅ (areas t !! a)) in
          (r, Tab (jar t) (location t) (<[a := st]> (areas t)))
      end
  end.

Definition browser : Browser tab := {|
  br_storageState := storageState;
  br_addCookies := addCookies;
  br_url := location;
  br_goto := goto;
  br_evaluate := evaluate
|}.

End Tab.


(** A network given by a table of redirects.  A URL that is only
    [scheme://authority] gets the path [/]; the storage area of a page is
    its [scheme://authority], and pages without one have none. *)
Fixpoint authority_end (s : jsstring) : jsstring :=
  match s with
  | c :: r => if decide (c = slash) then [] else c :: authority_end r
  | [] => []
  end.

Fixpoint origin_of (url : jsstring) : option jsstring :=
  match url with
  | [] => None
  | c :: r =>
      match strip_prefix (js "://") url with
      | Some rest => Some (js "://" ++ authority_end rest)
      | None => if decide (c = slash) then None else o ← origin_of r; Some (c :: o)
      end
  end.

Definition normalise (url : jsstring) : jsstring :=
  if bool_decide (origin_of url = Some url) then url ++ js "/" else url.

Fixpoint assoc (table : list (jsstring * jsstring)) (k : jsstring) : option jsstring :=
  match table with
  | [] => None
  | (k', v) :: rest => if decide (k' = k) then Some v else assoc rest k
  end.

Definition table_web (redirects : list (jsstring * jsstring))
    (unreachable : list jsstring) : web := {|
  accepts := λ c, match c with VObj _ => true | _ => false end;
  lands := λ _ url,
    match url with
    | VStr u =>
        if bool_decide (u ∈ unreachable) then None
        else if bool_decide (origin_of u = None) then None
        else Some (default (normalise u) (assoc redirects u))
    | _ => None
    end;
  area_of := origin_of
|}.

(** JSON text written with apostrophes in place of double quotes. *)
Definition json (s : string) : jsstring :=
  map (λ c, if bool_decide (c = 39%N) then 34%N else c) (js s).

End Sim.

(** ** Traces *)

Section Traces.
Context {S D : Type} `{Browser S}.

Local Abbreviation event := (@event S).
Local Abbreviation world := (@world S D).
Local Abbreviation M := (@M S D).

Definition succeeded (e : event) : Prop := ev_error e = None.

(** What a call leaves of the session it is issued on. *)
Definition replay_call (c : call) (s : S) : S :=
  match c with
  | CAddCookies cookies => (br_addCookies cookies s).2
  | CGoto url => (br_goto url s).2
  | CEvaluate script arg => (br_evaluate script arg s).2
  | _ => s
  end.

(** [linked s t s']: the calls of [t] were issued one after the other,
    the first on [s], each on the session its predecessor left, whether
    that one succeeded or not, and the last one left [s']. *)
Fixpoint linked (s : S) (t : list event) (s' : S) : Prop :=
  match t with
  | [] => s' = s
  | e :: t' => ev_at e = s ∧ linked (replay_call (ev_call e) s) t' s'
  end.

(** A failure ends the run: every call but the last succeeded, and a
    rejected last call gives the run its error.  An error with no
    rejected call was thrown by the language itself. *)
Definition terminal (A : Type) (r : result A) (t : list event) : Prop :=
  match r with
  | Ok _ => Forall succeeded t
  | Err e =>
      (Forall succeeded t ∧ (e = SyntaxError ∨ e = TypeError))
      ∨ ∃ t0 ev, t = t0 ++ [ev] ∧ Forall succeeded t0 ∧ ev_error ev = Some e
  end.

Definition tidy {A} (m : M A) : Prop :=
  ∀ w, linked (session w) (m w).2 (session (m w).1.2) ∧ terminal A (m w).1.1 (m w).2.

(** [emits P m]: every call [m] issues satisfies [P]. *)
Definition emits {A} (P : call -> Prop) (m : M A) : Prop :=
  ∀ w, Forall (λ e, P (ev_call e)) (m w).2.

End Traces.

(** ** The two phases of the load action *)

Section Phases.
Context `{Builtins} {S D : Type} `{Browser S} `{FileSystem D}.

Local Abbreviation event := (@event S).
Local Abbreviation world := (@world S D).
Local Abbreviation M := (@M S D).

(** The entries the main loop runs over: [storageState.origins || []]. *)
Definition entries_of (storageState : value) : result (list value) :=
  origins ← Get storageState P_origins;
  iterate (if ToBoolean origins then origins else VArr []).

(** Everything the load action does before its main loop. *)
Definition load_prelude (p : params) : M (list value) :=
  storageStateJson ← fsp_readFile (path p);
  storageState ← lift (match JSON_parse storageStateJson with
                       | Some v => Ok v
                       | None => Err SyntaxError
                       end);
  cookies ← lift (Get storageState P_cookies);
  hasCookies ← lift (nonempty_guard cookies);
  (if (hasCookies : bool) then browserContext_addCookies cookies else mret ());;
  origins ← lift (Get storageState P_origins);
  lift (if ToBoolean origins
        then l ← iterate origins; collect_origins l []
        else Ok []);;
  lift (iterate (if ToBoolean origins then origins else VArr [])).

(** [reaches p w x w1 t]: the load of [p] started in [w] gets to the loop
    entry [x] in world [w1], having issued the calls [t] before. *)
Definition reaches (p : params) (w : world) (x : value) (w1 : world)
    (t : list event) : Prop :=
  ∃ pre post w0 t0 t1,
    load_prelude p w = (Ok (pre ++ x :: post), w0, t0)
    ∧ forOf pre restoreOrigin w0 = (Ok (), w1, t1)
    ∧ t = t0 ++ t1.

Definition is_evaluate (e : event) : Prop :=
  ∃ script arg, ev_call e = CEvaluate script arg.


(** The argument of the script evaluation for an entry, when the test
    [originData.localStorage && originData.localStorage.length > 0] lets
    one be issued. *)
Definition storage_to_inject (originData : value) : option value :=
  match Get originData P_localStorage with
  | Ok localStorage =>
      match nonempty_guard localStorage with
      | Ok true => Some localStorage
      | _ => None
      end
  | Err _ => None
  end.

(** The argument of a call, when it is a script evaluation. *)
Definition evaluated (e : event) : option value :=
  match ev_call e with
  | CEvaluate _ arg => Some arg
  | _ => None
  end.

Definition url_read (e : event) : option unit :=
  match ev_call e with
  | CUrl => Some ()
  | _ => None
  end.

(** The target of a call, when it is a navigation. *)
Definition navigated (e : event) : option value :=
  match ev_call e with
  | CGoto url => Some url
  | _ => None
  end.

(** The [origin] of an entry, when it can be read. *)
Definition entry_origin (originData : value) : option value :=
  match Get originData P_origin with
  | Ok origin => Some origin
  | Err _ => None
  end.

(** Two entries with the same [origin] and the same [localStorage], and
    two values of [origins] that are equal or are arrays of such
    entries. *)
Definition same_entry (x y : value) : Prop :=
  Get x P_origin = Get y P_origin ∧ Get x P_localStorage = Get y P_localStorage.

Definition same_origins (o1 o2 : value) : Prop :=
  o1 = o2 ∨ ∃ l1 l2, o1 = VArr l1 ∧ o2 = VArr l2 ∧ Forall2 same_entry l1 l2.

End Phases.

(** ** Sample documents, networks and worlds *)

Module Demo.

Definition load (W : Sim.web) (p : params) (w : @world Sim.tab Sim.files) :=
  @loadStorageState_action Sim.builtins Sim.tab Sim.files (@Sim.browser Sim.builtins W)
    Sim.filesystem p w.

Definition save (W : Sim.web) (p : params) (w : @world Sim.tab Sim.files) :=
  @saveStorageState_action Sim.builtins Sim.tab Sim.files (@Sim.browser Sim.builtins W)
    Sim.filesystem p w.

(** Every site answers under the URL it is asked for. *)
Definition plain : Sim.web := Sim.table_web [] [].

(** [http://a.test] redirects to [https://a.test/]. *)
Definition redirecting : Sim.web :=
  Sim.table_web [(js "http://a.test", js "https://a.test/")] [].


Definition blank : Sim.tab := Sim.Tab [] (js "about:blank") ∅.

Definition state_json : params := {| path := js "/state.json" |}.

(** A disk whose only file is [/state.json]. *)
Definition disk_with (text : jsstring) : Sim.files :=
  <[ [js "state.json"] := Sim.File text ]> ∅.

Definition item (name val : string) : value :=
  VObj [(js "name", VStr (js name)); (js "value", VStr (js val))].

Definition origin_entry (origin : string) (items : list value) : value :=
  VObj [(js "origin", VStr (js origin)); (js "localStorage", VArr items)].

Definition script : page_script := ScriptFunction SetItems.

Definition area (kvs : list (string * string)) : storage :=
  list_to_map ((λ kv, (js kv.1, js kv.2)) <$> kvs).

(** The example of the specification: one cookie, one origin. *)
Definition session_cookie : value := item "session" "abc".

Definition example_text : jsstring :=
  Sim.json "{'cookies':[{'name':'session','value':'abc'}],'origins':[{'origin':'https://example.com','localStorage':[{'name':'theme','value':'dark'}]}]}".

Definition example_entry : value :=
  origin_entry "https://example.com" [item "theme" "dark"].

Definition example_value : value :=
  VObj [(js "cookies", VArr [session_cookie]); (js "origins", VArr [example_entry])].

(** Empty arrays. *)
Definition empty_text : jsstring := Sim.json "{'cookies':[],'origins':[]}".

(** An origin with nothing to inject. *)
Definition nothing_to_inject_text : jsstring :=
  Sim.json "{'cookies':[],'origins':[{'origin':'https://a.test','localStorage':[]}]}".

(** The same origin twice, then an origin whose string is a prefix of the
    URL the tab is on by then. *)
Definition prefix_text : jsstring :=
  Sim.json "{'cookies':[],'origins':[{'origin':'https://a.test','localStorage':[{'name':'k','value':'1'}]},{'origin':'https://a.test','localStorage':[{'name':'k','value':'2'}]},{'origin':'https://a.te','localStorage':[{'name':'k','value':'3'}]}]}".

(** An origin that redirects. *)
Definition redirected_text : jsstring :=
  Sim.json "{'cookies':[],'origins':[{'origin':'http://a.test','localStorage':[{'name':'k','value':'v'}]}]}".

Definition redirected_entry : value :=
  origin_entry "http://a.test" [item "k" "v"].

(** A cookie, and an origin entry without [origin]. *)
Definition no_origin_text : jsstring :=
  Sim.json "{'cookies':[{'name':'session','value':'abc'}],'origins':[{}]}".


(** The same origin twice. *)
Definition duplicate_text : jsstring :=
  Sim.json "{'cookies':[],'origins':[{'origin':'https://a.test','localStorage':[{'name':'k','value':'1'}]},{'origin':'https://a.test','localStorage':[{'name':'k','value':'2'}]}]}".

Definition duplicate_first : value := origin_entry "https://a.test" [item "k" "1"].
Definition duplicate_second : value := origin_entry "https://a.test" [item "k" "2"].

Definition duplicate_value : value :=
  VObj [(js "cookies", VArr []);
        (js "origins", VArr [duplicate_first; duplicate_second])].

Definition world_with (text : jsstring) : @world Sim.tab Sim.files :=
  World blank (disk_with text).

Definition at_ (url : string) (jar : list value)
    (areas : list (string * list (string * string))) : Sim.tab :=
  Sim.Tab jar (js url) (list_to_map ((λ a, (js a.1, area a.2)) <$> areas)).

Definition read_ok : @event Sim.tab :=
  Event (CReadFile (js "/state.json")) blank None.

(** A target for the save tool, under directories that do not exist. *)
Definition deep : params := {| path := js "/a/b/c/state.json" |}.

Definition saved_text : jsstring :=
  Sim.json "{
  'cookies': [
    {
      'name': 'session',
      'value': 'abc'
    }
  ],
  'origins': [
    {
      'origin': 'https://example.com',
      'localStorage': [
        {
          'name': 'theme',
          'value': 'dark'
        }
      ]
    }
  ]
}".

Definition reaches (W : Sim.web) :=
  @reaches Sim.builtins Sim.tab Sim.files (@Sim.browser Sim.builtins W) Sim.filesystem.

Definition body (W : Sim.web) (x : value) (w : @world Sim.tab Sim.files) :=
  @restoreOrigin Sim.builtins Sim.tab Sim.files (@Sim.browser Sim.builtins W) x w.



(** The tab of the example, before and after the load. *)
Definition with_cookie : Sim.tab := at_ "about:blank" [session_cookie] [].

Definition logged_in : Sim.tab :=
  at_ "https://example.com/" [session_cookie]
    [("https://example.com", [("theme", "dark")])].

Definition cookie_added : @event Sim.tab :=
  Event (CAddCookies (VArr [session_cookie])) blank None.




(** The disk after [mkdir -p /a/b/c], and after the write. *)
Definition dirs_made : Sim.files :=
  <[ [js "a"; js "b"; js "c"] := Sim.Dir ]>
    (<[ [js "a"; js "b"] := Sim.Dir ]> (<[ [js "a"] := Sim.Dir ]> ∅)).

Definition file_written : Sim.files :=
  <[ [js "a"; js "b"; js "c"; js "state.json"] := Sim.File saved_text ]> dirs_made.

(** A document with a [null] after its first entry. *)
Definition null_entry_text : jsstring :=
  Sim.json "{'cookies':[{'name':'session','value':'abc'}],'origins':[{'origin':'https://a.test','localStorage':[{'name':'k','value':'v'}]},null]}".

Definition null_entry_value : value :=
  VObj [(js "cookies", VArr [session_cookie]);
        (js "origins", VArr [origin_entry "https://a.test" [item "k" "v"]; VNull])].

(** A document whose [origins] is an object. *)
Definition origins_object_text : jsstring :=
  Sim.json "{'cookies':[{'name':'session','value':'abc'}],'origins':{}}".

Definition origins_object_value : value :=
  VObj [(js "cookies", VArr [session_cookie]); (js "origins", VObj [])].

(** The example, with fields the tool does not know. *)
Definition annotated_text : jsstring :=
  Sim.json "{'version':1,'cookies':[{'name':'session','value':'abc'}],'origins':[{'origin':'https://example.com','localStorage':[{'name':'theme','value':'dark'}],'sessionStorage':[{'name':'s','value':'t'}]}]}".

Definition annotated_entry : value :=
  VObj [(js "origin", VStr (js "https://example.com"));
        (js "localStorage", VArr [item "theme" "dark"]);
        (js "sessionStorage", VArr [item "s" "t"])].

Definition annotated_value : value :=
  VObj [(js "version", VNum 1);
        (js "cookies", VArr [session_cookie]);
        (js "origins", VArr [annotated_entry])].

(** A document whose [cookies] is a string. *)
Definition cookies_string_text : jsstring := Sim.json "{'cookies':'abc'}".

(** The world with no file. *)
Definition no_file : @world Sim.tab Sim.files := World blank ∅.

Definition missing : error := Rejected (js "ENOENT").

Definition empty_value : value :=
  VObj [(js "cookies", VArr []); (js "origins", VArr [])].

(** Items for two keys, the first key twice. *)
Definition k1 : value := item "k" "1".
Definition k2 : value := item "k" "2".
Definition j3 : value := item "j" "3".

Definition tools (W : Sim.web) (capture : bool) :=
  @storage_tools Sim.builtins Sim.tab Sim.files (@Sim.browser Sim.builtins W)
    Sim.filesystem capture.

Definition save_tool (W : Sim.web) (capture : bool) :=
  @saveStorageState_tool Sim.builtins Sim.tab Sim.files (@Sim.browser Sim.builtins W)
    Sim.filesystem capture.

(** A path with a quote in it, and a context with a current tab. *)
Definition quoted : params := {| path := js "/tmp/o'brien.json" |}.

Definition with_tab : context := {| hasCurrentTab := true |}.

Definition load_handle (W : Sim.web) (capture : bool) (ctx : context) (p : params) :=
  @loadStorageState Sim.builtins Sim.tab Sim.files (@Sim.browser Sim.builtins W)
    Sim.filesystem capture ctx p.

Definition save_handle (W : Sim.web) (ctx : context) (p : params) :=
  @saveStorageState Sim.builtins Sim.tab Sim.files (@Sim.browser Sim.builtins W)
    Sim.filesystem ctx p.





(** One entry for [https://a.test], a tab that is already there, and a
    network that sends [https://a.test] on to [https://b.test/]. *)
Definition single_text : jsstring :=
  Sim.json "{'cookies':[],'origins':[{'origin':'https://a.test','localStorage':[{'name':'k','value':'v'}]}]}".

Definition single_entry : value := origin_entry "https://a.test" [item "k" "v"].

Definition moved : Sim.web :=
  Sim.table_web [(js "https://a.test", js "https://b.test/")] [].

Definition on_a : Sim.tab := at_ "https://a.test/" [] [].

End Demo.

(** * Properties *)

(** ** Running actions: equations *)

Section Runs.
Context `{Builtins} {S D : Type} `{Browser S} `{FileSystem D}.

Local Abbreviation M := (@M S D).
Local Abbreviation event := (@event S).
Local Abbreviation world := (@world S D).

Lemma rbind_Ok {A B} (a : A) (k : A -> result B) : (Ok a ≫= k) = k a.
Proof. reflexivity. Qed.

Lemma rbind_Err {A B} (e : error) (k : A -> result B) : (Err e ≫= k) = Err e.
Proof. reflexivity. Qed.

Lemma run_bind {A B} (m : M A) (k : A -> M B) (w : world) :
  (m ≫= k) w =
  match m w with
  | (Ok a, w1, t1) => let '(r, w2, t2) := k a w1 in (r, w2, t1 ++ t2)
  | (Err e, w1, t1) => (Err e, w1, t1)
  end.
Proof. reflexivity. Qed.

Lemma run_lift_bind {A B} (r : result A) (k : A -> M B) (w : world) :
  (lift r ≫= k) w =
  match r with
  | Ok a => k a w
  | Err e => (Err e, w, [])
  end.
Proof.
  rewrite run_bind. unfold lift. destruct r as [a|e]; [|done].
  by destruct (k a w) as [[r w2] t2].
Qed.

Lemma run_ret_bind {A B} (a : A) (k : A -> M B) (w : world) :
  (mret a ≫= k) w = k a w.
Proof.
  rewrite run_bind. unfold mret, M_ret.
  by destruct (k a w) as [[r w2] t2].
Qed.

Lemma forOf_app (l1 l2 : list value) (body : value -> M unit) (w : world) :
  forOf (l1 ++ l2) body w =
  match forOf l1 body w with
  | (Ok _, w1, t1) => let '(r, w2, t2) := forOf l2 body w1 in (r, w2, t1 ++ t2)
  | (Err e, w1, t1) => (Err e, w1, t1)
  end.
Proof.
  revert w. induction l1 as [|x l1 IH]; intros w; simpl.
  - unfold mret, M_ret. by destruct (forOf l2 body w) as [[r w2] t2].
  - rewrite !run_bind. destruct (body x w) as [[[[]|e] w1] t1]; [|done].
    rewrite IH. destruct (forOf l1 body w1) as [[[[]|e] w2] t2]; [|done].
    destruct (forOf l2 body w2) as [[r w3] t3]. by rewrite app_assoc.
Qed.

(** The array length compared with zero. *)
Lemma Number_gt0_ofNat (n : nat) :
  Number_gt0 (Number_ofNat n) = bool_decide (0 < n)%nat.
Proof.
  unfold Number_gt0, Number_ofNat.
  destruct (Qle_bool (inject_Z (Z.of_nat n)) (1 # 2 ^ 1075)) eqn:E.
  - apply Qle_bool_iff in E. unfold Qle in E. cbn [Qnum Qden inject_Z] in E.
    destruct n as [|n]; [done|]. exfalso.
    assert (1 <= Z.of_nat (Datatypes.S n))%Z by lia.
    assert (2 <= Z.pos (2 ^ 1075))%Z.
    { rewrite Pos2Z.inj_pow. change 2%Z with (2 ^ 1)%Z at 1.
      apply Z.pow_le_mono_r; lia. }
    nia.
  - destruct n as [|n]; [|done]. exfalso.
    assert (Qle_bool (inject_Z (Z.of_nat 0)) (1 # 2 ^ 1075) = true); [|congruence].
    apply Qle_bool_iff. unfold Qle. cbn [Qnum Qden inject_Z]. lia.
Qed.

Lemma nonempty_guard_array (l : list value) :
  nonempty_guard (VArr l) = Ok (bool_decide (l ≠ [])).
Proof.
  unfold nonempty_guard. simpl. rewrite Number_gt0_ofNat.
  f_equal. destruct l; by simpl.
Qed.

Lemma nonempty_guard_falsy (x : value) :
  ToBoolean x = false -> nonempty_guard x = Ok false.
Proof. unfold nonempty_guard. by intros ->. Qed.

End Runs.

(** ** Errors thrown by the language are [TypeError]s *)

Section Language.
Context `{Builtins}.

Lemma Get_err v p e : Get v p = Err e -> e = TypeError.
Proof. destruct v; simpl; congruence. Qed.

Lemma ToString_err v : ∀ e, ToString v = Err e -> e = TypeError.
Proof.
  revert v. fix IH 1. intros [| |[]| | |l|props] e; simpl; try congruence.
  - revert l e. fix IHl 1. intros [|x l] e; [congruence|].
    unfold mbind, result_bind.
    assert (∀ e', match x with
                  | VUndefined | VNull => Ok []
                  | _ => ToString x
                  end = Err e' -> e' = TypeError) as Hx.
    { intros e'. pose proof (IH x e') as Hx. destruct x; try congruence; exact Hx. }
    destruct (match x with VUndefined | VNull => Ok [] | _ => ToString x end)
      as [s|e'] eqn:Ex.
    + pose proof (IHl l) as Hl. clear IHl IH Hx.
      destruct l as [|y l']; [congruence|].
      match goal with
      | |- context [match ?j with Ok _ => _ | Err _ => _ end] =>
          destruct j as [r|e''] eqn:Ej
      end; [congruence|].
      intros [= <-]. by apply Hl.
    + intros [= <-]. by apply Hx.
  - destruct (own props (js "toString")); congruence.
Qed.

Lemma GreaterThanZero_err v e : GreaterThanZero v = Err e -> e = TypeError.
Proof.
  destruct v as [| |b|q|s|l|props]; unfold GreaterThanZero; try congruence.
  - unfold mbind, result_bind.
    destruct (ToString (VArr l)) as [s|e'] eqn:E; [congruence|].
    intros [= <-]. by eapply ToString_err.
  - destruct (own props (js "toString")); congruence.
Qed.

Lemma nonempty_guard_err x e : nonempty_guard x = Err e -> e = TypeError.
Proof.
  unfold nonempty_guard. destruct (ToBoolean x); [|congruence].
  unfold mbind, result_bind. destruct (Get x P_length) as [len|e'] eqn:E.
  - apply GreaterThanZero_err.
  - intros [= <-]. by eapply Get_err.
Qed.

Lemma iterate_err v e : iterate v = Err e -> e = TypeError.
Proof. destruct v; simpl; congruence. Qed.

Lemma collect_origins_err l acc e :
  collect_origins l acc = Err e -> e = TypeError.
Proof.
  revert acc. induction l as [|x l IH]; intros acc; simpl; [congruence|].
  unfold mbind, result_bind. destruct (Get x P_origin) as [o|e'] eqn:E.
  - apply IH.
  - intros [= <-]. by eapply Get_err.
Qed.

End Language.

(** ** Invariants of runs, proved once per combinator *)

Section Invariants.
Context `{Builtins} {S D : Type} `{Browser S} `{FileSystem D}.

Local Abbreviation M := (@M S D).
Local Abbreviation event := (@event S).
Local Abbreviation world := (@world S D).

Lemma linked_app (s s1 s2 : S) (t1 t2 : list event) :
  linked s t1 s1 -> linked s1 t2 s2 -> linked s (t1 ++ t2) s2.
Proof.
  revert s. induction t1 as [|e t1 IH]; simpl; intros s.
  - by intros ->.
  - intros [-> Ht1] Ht2. split; [done|]. by apply IH.
Qed.

Lemma terminal_app {A B} (a : A) (r : result B) (t1 t2 : list event) :
  terminal A (Ok a) t1 -> terminal B r t2 -> terminal B r (t1 ++ t2).
Proof.
  simpl. intros Hok1. destruct r as [b|e]; simpl.
  - intros Hok2. by apply Forall_app.
  - intros [[Hok2 He]|(t0 & ev & -> & Hok2 & He)].
    + left. split; [by apply Forall_app|done].
    + right. exists (t1 ++ t0), ev. rewrite app_assoc.
      split_and!; [done|by apply Forall_app|done].
Qed.

Lemma tidy_ret {A} (a : A) : tidy (D:=D) (mret a).
Proof. intros w. simpl. split; [done|constructor]. Qed.


Lemma tidy_bind {A B} (m : M A) (k : A -> M B) :
  tidy m -> (∀ a, tidy (k a)) -> tidy (m ≫= k).
Proof.
  intros Hm Hk w. rewrite run_bind. specialize (Hm w).
  destruct (m w) as [[[a|e] w1] t1]; simpl in Hm; [|done].
  specialize (Hk a w1). destruct (k a w1) as [[r w2] t2]. simpl in *.
  destruct Hm as [Hl1 Ht1], Hk as [Hl2 Ht2]. split.
  - by eapply linked_app.
  - by eapply (terminal_app a).
Qed.

Lemma tidy_on_session {A} (c : call) (op : S -> result A * S) :
  (∀ s, replay_call c s = (op s).2) -> tidy (D:=D) (on_session c op).
Proof.
  intros Hc w. unfold on_session. specialize (Hc (session w)).
  destruct (op (session w)) as [r s']. simpl in *. split; [by rewrite Hc|].
  destruct r as [a|e]; simpl.
  - by repeat constructor.
  - right. exists [], (Event c (session w) (Some e)). by repeat constructor.
Qed.

Lemma tidy_on_disk {A} (c : call) (op : D -> result A * D) :
  ¬ session_mutating c -> tidy (S:=S) (on_disk c op).
Proof.
  intros Hc w. unfold on_disk.
  destruct (op (disk w)) as [r d']. simpl. split.
  - split; [done|]. destruct c; simpl in *; tauto.
  - destruct r as [a|e]; simpl.
    + by repeat constructor.
    + right. exists [], (Event c (session w) (Some e)). by repeat constructor.
Qed.


Lemma emits_ret {A} P (a : A) : emits P (mret a : M A).
Proof. intros w. constructor. Qed.

Lemma emits_lift {A} P (r : result A) : emits P (lift r : M A).
Proof. intros w. constructor. Qed.

Lemma emits_bind {A B} P (m : M A) (k : A -> M B) :
  emits P m -> (∀ a, emits P (k a)) -> emits P (m ≫= k).
Proof.
  intros Hm Hk w. rewrite run_bind. specialize (Hm w).
  destruct (m w) as [[[a|e] w1] t1]; simpl in Hm; [|done].
  specialize (Hk a w1). destruct (k a w1) as [[r w2] t2]. simpl in *.
  by apply Forall_app.
Qed.

Lemma emits_on_session {A} (P : call -> Prop) c (op : S -> result A * S) :
  P c -> emits P (on_session c op : M A).
Proof.
  intros Hc w. unfold on_session. destruct (op (session w)) as [r s'].
  simpl. by repeat constructor.
Qed.

Lemma emits_on_disk {A} (P : call -> Prop) c (op : D -> result A * D) :
  P c -> emits P (on_disk c op : M A).
Proof.
  intros Hc w. unfold on_disk. destruct (op (disk w)) as [r d'].
  simpl. by repeat constructor.
Qed.

Lemma emits_forOf P (l : list value) (body : value -> M unit) :
  (∀ x, emits P (body x)) -> emits P (forOf l body).
Proof.
  intros Hb. induction l as [|x l IH]; simpl.
  - apply emits_ret.
  - apply emits_bind; [apply Hb|]. by intros _.
Qed.

End Invariants.

(** ** The save tool *)

Section Save.
Context `{Builtins} {S D : Type} `{Browser S} `{FileSystem D}.

Local Abbreviation M := (@M S D).
Local Abbreviation event := (@event S).
Local Abbreviation world := (@world S D).

(** The run of the save action, by cases on what the collaborators
    answer. *)
Lemma saveStorageState_action_run (p : params) (w : world) :
  saveStorageState_action p w =
  let s := session w in
  let dir := path_dirname (path p) in
  match br_storageState s with
  | Err e => (Err e, w, [Event CStorageState s (Some e)])
  | Ok state =>
      let data := JSON_stringify state in
      match fs_mkdir dir true (disk w) with
      | (Err e, d1) =>
          (Err e, World s d1,
           [Event CStorageState s None; Event (CMkdir dir true) s (Some e)])
      | (Ok _, d1) =>
          let '(r, d2) := match data with
                          | Some text => fs_writeFile (path p) text d1
                          | None => (Err TypeError, d1)
                          end in
          (_ ← r; Ok (js "Storage state saved to " ++ path p), World s d2,
           [Event CStorageState s None; Event (CMkdir dir true) s None;
            Event (CWriteFile (path p) data) s (outcome r)])
      end
  end.
Proof.
  destruct w as [s d]. unfold saveStorageState_action. rewrite run_bind.
  unfold browserContext_storageState, on_session. simpl.
  destruct (br_storageState s) as [state|e]; [|done]. simpl.
  rewrite run_bind. unfold fsp_mkdir, on_disk at 1. simpl.
  destruct (fs_mkdir (path_dirname (path p)) true d) as [[[]|e] d1]; [|done].
  simpl. rewrite run_bind. unfold fsp_writeFile, on_disk. simpl.
  destruct (match JSON_stringify state with
            | Some text => fs_writeFile (path p) text d1
            | None => (Err TypeError, d1)
            end) as [[[]|e] d2]; done.
Qed.

(** C8. Save asks for the storage state, then makes the directory of the
    path with [recursive: true], then writes the JSON text of the state
    to the path with the overwriting flag, issuing nothing else: no
    existence test and no prompt come before the write.  When the
    collaborators accept the calls, the disk is what [writeFile] makes of
    what [mkdir] made, and the tool reports success. *)
Theorem save_creates_parents_then_overwrites
    (p : params) (w : world) (state : value) (text : jsstring) (d1 d2 : D) :
  br_storageState (session w) = Ok state ->
  JSON_stringify state = Some text ->
  fs_mkdir (path_dirname (path p)) true (disk w) = (Ok (), d1) ->
  fs_writeFile (path p) text d1 = (Ok (), d2) ->
  saveStorageState_action p w =
    (Ok (js "Storage state saved to " ++ path p),
     World (session w) d2,
     [Event CStorageState (session w) None;
      Event (CMkdir (path_dirname (path p)) true) (session w) None;
      Event (CWriteFile (path p) (Some text)) (session w) None]).
Proof.
  intros Hs Hj Hm Hw. rewrite saveStorageState_action_run. simpl.
  by rewrite Hs, Hm, Hj, Hw.
Qed.

(** C9. Whatever the outcome, save leaves the session as it found it: the
    only call it makes on the session is the [storageState] query, and
    its other calls are [mkdir] and [writeFile]. *)
Theorem save_is_read_only (p : params) (w : world) :
  session (saveStorageState_action p w).1.2 = session w
  ∧ Forall (λ e : event, ¬ session_mutating (ev_call e) ∧ ev_at e = session w)
      (saveStorageState_action p w).2
  ∧ Forall (λ e : event, session_call (ev_call e) -> ev_call e = CStorageState)
      (saveStorageState_action p w).2.
Proof.
  rewrite saveStorageState_action_run. simpl.
  destruct (br_storageState (session w)) as [state|e]; simpl.
  - destruct (fs_mkdir (path_dirname (path p)) true (disk w)) as [[[]|e] d1]; simpl.
    + destruct (match JSON_stringify state with
                | Some text => fs_writeFile (path p) text d1
                | None => (Err TypeError, d1)
                end) as [r d2]; simpl.
      split_and!; [done| |]; repeat constructor; simpl; tauto.
    + split_and!; [done| |]; repeat constructor; simpl; tauto.
  - split_and!; [done| |]; repeat constructor; simpl; tauto.
Qed.

End Save.

(** ** The load tool *)

Section Load.
Context `{Builtins} {S D : Type} `{Browser S} `{FileSystem D}.

Local Abbreviation M := (@M S D).
Local Abbreviation event := (@event S).
Local Abbreviation world := (@world S D).

Lemma bind_ext {A B} (m : M A) (k1 k2 : A -> M B) (w : world) :
  (∀ a w', k1 a w' = k2 a w') -> (m ≫= k1) w = (m ≫= k2) w.
Proof.
  intros Hk. rewrite !run_bind.
  destruct (m w) as [[[a|e] w1] t1]; [|done]. by rewrite Hk.
Qed.

Lemma bind_assoc {A B C} (m : M A) (f : A -> M B) (g : B -> M C) (w : world) :
  ((m ≫= f) ≫= g) w = (m ≫= λ x, f x ≫= g) w.
Proof.
  rewrite !run_bind.
  destruct (m w) as [[[a|e] w1] t1]; [|done].
  rewrite run_bind.
  destruct (f a w1) as [[[b|e] w2] t2]; [|done].
  destruct (g b w2) as [[r w3] t3]. by rewrite app_assoc.
Qed.

Lemma loadStorageState_action_split (p : params) (w : world) :
  loadStorageState_action p w =
  (entries ← load_prelude p;
   forOf entries restoreOrigin;;
   mret (js "Storage state loaded from " ++ path p)) w.
Proof.
  unfold loadStorageState_action, load_prelude.
  repeat (rewrite bind_assoc; apply bind_ext; intros ? ?).
  done.
Qed.

(** The loop body, by cases on what the page answers. *)
Lemma restoreOrigin_run (x : value) (w : world) :
  restoreOrigin x w =
  let s := session w in
  match Get x P_origin with
  | Err e => (Err e, w, [])
  | Ok origin =>
      match ToString origin with
      | Err e => (Err e, w, [Event CUrl s None])
      | Ok search =>
          let '(nav, s1, t_nav) :=
            if startsWith (br_url s) search then (Ok (), s, [])
            else let '(r, s1) := br_goto origin s in
                 (r, s1, [Event (CGoto origin) s (outcome r)]) in
          match nav with
          | Err e => (Err e, World s1 (disk w), Event CUrl s None :: t_nav)
          | Ok _ =>
              match (localStorage ← Get x P_localStorage;
                     inject ← nonempty_guard localStorage;
                     Ok (localStorage, inject)) with
              | Err e => (Err e, World s1 (disk w), Event CUrl s None :: t_nav)
              | Ok (_, false) => (Ok (), World s1 (disk w), Event CUrl s None :: t_nav)
              | Ok (localStorage, true) =>
                  let '(r, s2) := br_evaluate (ScriptFunction SetItems) localStorage s1 in
                  (r, World s2 (disk w),
                   Event CUrl s None :: t_nav
                   ++ [Event (CEvaluate (ScriptFunction SetItems) localStorage) s1 (outcome r)])
              end
          end
      end
  end.
Proof.
  destruct w as [s d]. unfold restoreOrigin. rewrite run_lift_bind. simpl.
  destruct (Get x P_origin) as [origin|e]; [|done].
  rewrite run_bind. unfold page_url, on_session at 1. simpl.
  rewrite run_lift_bind.
  destruct (ToString origin) as [search|e]; [|done].
  cbn [negb].
  destruct (startsWith (br_url s) search); cbn [negb].
  - rewrite run_ret_bind, run_lift_bind. unfold mbind at 3, result_bind.
    destruct (Get x P_localStorage) as [ls|e]; [|done].
    rewrite run_lift_bind. unfold mbind at 1, result_bind.
    destruct (nonempty_guard ls) as [[]|e]; [|done..].
    unfold page_evaluate, on_session. simpl.
    by destruct (br_evaluate (ScriptFunction SetItems) ls s) as [r s2].
  - rewrite run_bind. unfold page_goto, on_session at 1. simpl.
    destruct (br_goto origin s) as [[[]|e] s1]; [|done].
    rewrite run_lift_bind. unfold mbind at 3, result_bind.
    destruct (Get x P_localStorage) as [ls|e]; [|done].
    rewrite run_lift_bind. unfold mbind at 1, result_bind.
    destruct (nonempty_guard ls) as [[]|e]; [|done..].
    unfold page_evaluate, on_session. simpl.
    by destruct (br_evaluate (ScriptFunction SetItems) ls s1) as [r s2].
Qed.

(** A run that reaches an entry continues with the body for that entry. *)
Lemma reaches_run (p : params) (w w1 : world) (x : value) (t : list event) :
  reaches p w x w1 t ->
  ∃ rest, (loadStorageState_action p w).2 = t ++ (restoreOrigin x w1).2 ++ rest.
Proof.
  intros (pre & post & w0 & t0 & t1 & Hpre & Hloop & ->).
  rewrite loadStorageState_action_split, run_bind, Hpre, run_bind.
  rewrite forOf_app, Hloop. simpl. rewrite run_bind.
  destruct (restoreOrigin x w1) as [[[[]|e] w2] t2]; simpl.
  - destruct (forOf post restoreOrigin w2) as [[[[]|e] w3] t3]; simpl.
    + exists t3. by rewrite !app_nil_r, !app_assoc.
    + exists t3. by rewrite !app_assoc.
  - exists []. by rewrite !app_nil_r, !app_assoc.
Qed.

(** The prelude, by cases on what the collaborators answer. *)
Lemma load_prelude_run (p : params) (w : world) :
  load_prelude p w =
  let s := session w in
  match fs_readFile (path p) (disk w) with
  | Err e => (Err e, w, [Event (CReadFile (path p)) s (Some e)])
  | Ok text =>
      let read := Event (CReadFile (path p)) s None in
      match JSON_parse text with
      | None => (Err SyntaxError, w, [read])
      | Some v =>
          match (cookies ← Get v P_cookies;
                 hasCookies ← nonempty_guard cookies;
                 Ok (cookies, hasCookies)) with
          | Err e => (Err e, w, [read])
          | Ok (cookies, hasCookies) =>
              let '(r, s1, t_c) :=
                if (hasCookies : bool)
                then let '(r, s1) := br_addCookies cookies s in
                     (r, s1, [Event (CAddCookies cookies) s (outcome r)])
                else (Ok (), s, []) in
              match r with
              | Err e => (Err e, World s1 (disk w), read :: t_c)
              | Ok _ =>
                  (origins ← Get v P_origins;
                   (if ToBoolean origins
                    then l ← iterate origins; collect_origins l []
                    else Ok []);;
                   iterate (if ToBoolean origins then origins else VArr []),
                   World s1 (disk w), read :: t_c)
              end
          end
      end
  end.
Proof.
  destruct w as [s d]. unfold load_prelude. rewrite run_bind.
  unfold fsp_readFile, on_disk at 1. simpl.
  destruct (fs_readFile (path p) d) as [text|e]; [|done].
  rewrite run_lift_bind.
  destruct (JSON_parse text) as [v|]; [|done].
  rewrite run_lift_bind. unfold mbind at 6, result_bind.
  destruct (Get v P_cookies) as [cookies|e]; [|done].
  rewrite run_lift_bind. unfold mbind at 6, result_bind.
  destruct (nonempty_guard cookies) as [hasCookies|e]; [|done].
  assert (∀ s1 : S,
    (origins ← lift (Get v P_origins);
     lift (if ToBoolean origins
           then l ← iterate origins; collect_origins l []
           else Ok []);;
     lift (iterate (if ToBoolean origins then origins else VArr [])))
      (World s1 d : world) =
    (origins ← Get v P_origins;
     (if ToBoolean origins
      then l ← iterate origins; collect_origins l []
      else Ok []);;
     iterate (if ToBoolean origins then origins else VArr []),
     World s1 d, [])) as Htail.
  { intros s1. rewrite run_lift_bind.
    destruct (Get v P_origins) as [origins|e]; [|done].
    rewrite rbind_Ok, run_lift_bind.
    by destruct (if ToBoolean origins
                 then l ← iterate origins; collect_origins l []
                 else Ok []) as [l|e]. }
  destruct hasCookies.
  - rewrite run_bind. unfold browserContext_addCookies, on_session at 1. simpl.
    destruct (br_addCookies cookies s) as [[[]|e] s1]; [|done].
    by rewrite Htail.
  - rewrite run_ret_bind. by rewrite Htail.
Qed.

(** The loop issues only the calls of its body. *)
Lemma restoreOrigin_emits (x : value) :
  emits (D:=D)
    (λ c, c = CUrl ∨ (∃ url, c = CGoto url)
          ∨ ∃ arg, c = CEvaluate (ScriptFunction SetItems) arg
                   ∧ Get x P_localStorage = Ok arg)
    (restoreOrigin x).
Proof.
  unfold restoreOrigin.
  apply emits_bind; [apply emits_lift|intros origin].
  apply emits_bind; [apply emits_on_session; by left|intros url].
  apply emits_bind; [apply emits_lift|intros search].
  apply emits_bind.
  { destruct (negb _); [apply emits_on_session; right; left; by eexists|apply emits_ret]. }
  intros _ w. rewrite run_lift_bind.
  destruct (Get x P_localStorage) as [ls|e] eqn:Hls; [|constructor].
  revert w. change (emits (D:=D)
    (λ c, c = CUrl ∨ (∃ url, c = CGoto url)
          ∨ ∃ arg, c = CEvaluate (ScriptFunction SetItems) arg ∧ Ok ls = Ok arg)
    (inject ← lift (nonempty_guard ls);
     if (inject : bool) then page_evaluate (ScriptFunction SetItems) ls else mret ())).
  apply emits_bind; [apply emits_lift|intros []]; [|apply emits_ret].
  apply emits_on_session. right; right. by eexists.
Qed.

Lemma emits_mono {A} (P Q : call -> Prop) (m : M A) :
  (∀ c, P c -> Q c) -> emits P m -> emits Q m.
Proof. intros HPQ Hm w. eapply Forall_impl; [apply Hm|]. simpl. eauto. Qed.

Lemma forOf_restoreOrigin_emits (l : list value) :
  emits (D:=D)
    (λ c, c = CUrl ∨ (∃ url, c = CGoto url)
          ∨ ∃ arg, c = CEvaluate (ScriptFunction SetItems) arg
                   ∧ ∃ x, x ∈ l ∧ Get x P_localStorage = Ok arg)
    (forOf l restoreOrigin).
Proof.
  induction l as [|x l IH]; simpl; [apply emits_ret|].
  apply emits_bind.
  - eapply emits_mono; [|apply restoreOrigin_emits]. simpl.
    intros c [?|[?|(arg & ? & ?)]]; [by left|by right; left|].
    right; right. exists arg. split; [done|]. exists x. split; [left|done].
  - intros _. eapply emits_mono; [|apply IH]. simpl.
    intros c [?|[?|(arg & ? & y & ? & ?)]]; [by left|by right; left|].
    right; right. exists arg. split; [done|]. exists y. split; [by right|done].
Qed.

(** The calls of the loop body for one entry: the URL is read, the tab
    is sent to the origin when its URL lacks the prefix, and at most one
    script is evaluated, on the session the navigation left. *)
Lemma restoreOrigin_shape (x : value) (w : world) (origin : value) (search : jsstring) :
  Get x P_origin = Ok origin ->
  ToString origin = Ok search ->
  let s := session w in
  ∃ inj,
    (restoreOrigin x w).2 =
      Event CUrl s None
      :: (if startsWith (br_url s) search then []
          else [Event (CGoto origin) s (outcome (br_goto origin s).1)])
      ++ inj
    ∧ (inj = []
       ∨ ∃ localStorage r,
           inj = [Event (CEvaluate (ScriptFunction SetItems) localStorage)
                    (if startsWith (br_url s) search then s else (br_goto origin s).2) r]
           ∧ Get x P_localStorage = Ok localStorage
           ∧ (startsWith (br_url s) search = false -> (br_goto origin s).1 = Ok ())).
Proof.
  intros Ho Hs. rewrite restoreOrigin_run, Ho, Hs. simpl.
  destruct (startsWith (br_url (session w)) search) eqn:Hpre.
  - destruct (Get x P_localStorage) as [ls|e]; [|by exists []; split; [|left]].
    rewrite rbind_Ok.
    destruct (nonempty_guard ls) as [[]|e]; [|by exists []; split; [|left]..].
    rewrite rbind_Ok.
    destruct (br_evaluate (ScriptFunction SetItems) ls (session w)) as [r s2]. simpl.
    eexists. split; [done|]. right. by exists ls, (outcome r).
  - destruct (br_goto origin (session w)) as [[[]|e] s1]; simpl;
      [|by exists []; split; [|left]].
    destruct (Get x P_localStorage) as [ls|e]; [|by exists []; split; [|left]].
    rewrite rbind_Ok.
    destruct (nonempty_guard ls) as [[]|e]; [|by exists []; split; [|left]..].
    rewrite rbind_Ok.
    destruct (br_evaluate (ScriptFunction SetItems) ls s1) as [r s2]. simpl.
    eexists. split; [done|]. right. by exists ls, (outcome r).
Qed.

(** C4. Content that is not JSON makes the load fail with the
    [SyntaxError] of [JSON.parse]; reading the file is the only call the
    run has issued, so no cookie was added, no navigation happened and no
    script was evaluated, and the world is as before. *)
Theorem load_rejects_malformed_json (p : params) (w : world) (text : jsstring) :
  fs_readFile (path p) (disk w) = Ok text ->
  JSON_parse text = None ->
  loadStorageState_action p w =
    (Err SyntaxError, w, [Event (CReadFile (path p)) (session w) None]).
Proof.
  intros Hread Hparse.
  rewrite loadStorageState_action_split, run_bind, load_prelude_run. simpl.
  by rewrite Hread, Hparse.
Qed.

(** C3. When the parsed document has a non-empty array of cookies, the
    first call after reading the file is a single [addCookies] with that
    whole array, on the session as the tool found it; every later call is
    a URL read, a navigation or a script evaluation. *)
Theorem load_applies_cookies_in_one_batch_first
    (p : params) (w : world) (text : jsstring) (v c : value) (cs : list value) :
  fs_readFile (path p) (disk w) = Ok text ->
  JSON_parse text = Some v ->
  Get v P_cookies = Ok (VArr (c :: cs)) ->
  ∃ rest,
    (loadStorageState_action p w).2 =
      Event (CReadFile (path p)) (session w) None
      :: Event (CAddCookies (VArr (c :: cs))) (session w)
           (outcome (br_addCookies (VArr (c :: cs)) (session w)).1)
      :: rest
    ∧ Forall (λ e : event, ev_call e = CUrl ∨ (∃ url, ev_call e = CGoto url)
                           ∨ is_evaluate e) rest
    ∧ Forall (λ e : event, ∀ cookies, ev_call e ≠ CAddCookies cookies) rest.
Proof.
  intros Hread Hparse Hc.
  assert (∃ rest, (loadStorageState_action p w).2 =
      Event (CReadFile (path p)) (session w) None
      :: Event (CAddCookies (VArr (c :: cs))) (session w)
           (outcome (br_addCookies (VArr (c :: cs)) (session w)).1)
      :: rest
    ∧ Forall (λ e : event, ev_call e = CUrl ∨ (∃ url, ev_call e = CGoto url)
                           ∨ is_evaluate e) rest) as (rest & Heq & Hrest).
  { rewrite loadStorageState_action_split, run_bind, load_prelude_run. simpl.
    rewrite Hread, Hparse, Hc, rbind_Ok, nonempty_guard_array, rbind_Ok. simpl.
    destruct (br_addCookies (VArr (c :: cs)) (session w)) as [[[]|e] s1]; simpl;
      [|by exists []].
    destruct (origins ← Get v P_origins;
              (if ToBoolean origins
               then l ← iterate origins; collect_origins l []
               else Ok []);;
              iterate (if ToBoolean origins then origins else VArr []))
      as [entries|e]; [|by exists []].
    rewrite run_bind.
    pose proof (forOf_restoreOrigin_emits entries (World s1 (disk w))) as Hloop.
    destruct (forOf entries restoreOrigin (World s1 (disk w))) as [[[[]|e] w2] t2];
      simpl in *.
    - exists t2. rewrite app_nil_r. split; [done|].
      eapply Forall_impl; [exact Hloop|]. simpl.
      intros ev [?|[?|(arg & ? & _)]]; [by left|by right; left|].
      right; right. by eexists _, _.
    - exists t2. split; [done|].
      eapply Forall_impl; [exact Hloop|]. simpl.
      intros ev [?|[?|(arg & ? & _)]]; [by left|by right; left|].
      right; right. by eexists _, _. }
  exists rest. split_and!; [done..|].
  eapply Forall_impl; [exact Hrest|]. simpl.
  intros ev [Hev|[[url Hev]|(script & arg & Hev)]] cookies; rewrite Hev; done.
Qed.

(** C2 (as amended). The load does not validate the shape of the parsed
    document.  When [cookies] and [origins] are absent, or present with a
    falsy value, the load succeeds and reading the file is its only call:
    nothing is done to the session.  An entry of [origins] that has no
    [origin] is processed like any other, with [undefined] for its
    origin: once the run gets to it, the URL is read and, unless that URL
    starts with the text [undefined], [page.goto(undefined)] is issued. *)
Theorem load_does_not_validate_shape (p : params) (w : world) :
  (∀ text v cookies origins,
     fs_readFile (path p) (disk w) = Ok text ->
     JSON_parse text = Some v ->
     Get v P_cookies = Ok cookies -> ToBoolean cookies = false ->
     Get v P_origins = Ok origins -> ToBoolean origins = false ->
     loadStorageState_action p w =
       (Ok (js "Storage state loaded from " ++ path p), w,
        [Event (CReadFile (path p)) (session w) None]))
  ∧ (∀ x w1 t,
       reaches p w x w1 t ->
       Get x P_origin = Ok VUndefined ->
       startsWith (br_url (session w1)) (js "undefined") = false ->
       ∃ rest,
         (loadStorageState_action p w).2 =
           t ++ Event CUrl (session w1) None
             :: Event (CGoto VUndefined) (session w1)
                  (outcome (br_goto VUndefined (session w1)).1)
             :: rest).
Proof.
  split.
  - intros text v cookies origins Hread Hparse Hc Hcf Ho Hof.
    rewrite loadStorageState_action_split, run_bind, load_prelude_run. simpl.
    rewrite Hread, Hparse, Hc, rbind_Ok, (nonempty_guard_falsy _ Hcf), rbind_Ok.
    rewrite Ho, rbind_Ok, Hof. simpl. by destruct w.
  - intros x w1 t Hreach Ho Hpre.
    destruct (reaches_run _ _ _ _ _ Hreach) as [rest ->].
    destruct (restoreOrigin_shape x w1 VUndefined (js "undefined") Ho eq_refl)
      as (inj & -> & _).
    rewrite Hpre. by exists (inj ++ rest).
Qed.


(** C1 (as amended). For an entry the run gets to: if the navigation to
    the entry's origin, when it is issued (the URL of the tab does not
    start with the origin string) and succeeds, leaves the tab on a URL
    that starts with the origin string, then the URL of the session on
    which the script for that entry is evaluated starts with the origin
    string.  Nothing is asked of a navigation that is not issued.  The
    tool does not look at the URL again after navigating. *)
Theorem injection_url_starts_with_origin
    (p : params) (w w1 : world) (x origin : value) (search : jsstring)
    (t : list event) :
  reaches p w x w1 t ->
  Get x P_origin = Ok origin ->
  ToString origin = Ok search ->
  (startsWith (br_url (session w1)) search = false ->
   ∀ s', br_goto origin (session w1) = (Ok (), s') ->
         startsWith (br_url s') search = true) ->
  (∃ rest, (loadStorageState_action p w).2 = t ++ (restoreOrigin x w1).2 ++ rest)
  ∧ Forall (λ e, is_evaluate e -> startsWith (br_url (ev_at e)) search = true)
      (restoreOrigin x w1).2.
Proof.
  intros Hreach Ho Hs Hland. split; [by apply reaches_run|].
  destruct (restoreOrigin_shape x w1 origin search Ho Hs) as (inj & -> & Hinj).
  constructor; [by intros (? & ? & ?)|].
  apply Forall_app. split.
  - destruct (startsWith _ search); repeat constructor. by intros (? & ? & ?).
  - destruct Hinj as [->|(ls & r & -> & _ & Hnav)]; [constructor|].
    repeat constructor. simpl. intros _.
    destruct (startsWith (br_url (session w1)) search) eqn:Hpre; [done|].
    specialize (Hnav eq_refl). apply Hland; [done|].
    destruct (br_goto origin (session w1)) as [[] ?]; simpl in *; congruence.
Qed.

(** The trace of a load: the calls of the prelude, then those of the
    loop over the entries of the parsed document. *)
Lemma loadStorageState_action_trace (p : params) (w : world) :
  ∃ t0 t1,
    (loadStorageState_action p w).2 = t0 ++ t1
    ∧ Forall (λ e : event, ev_call e = CReadFile (path p)
                           ∨ ∃ cookies, ev_call e = CAddCookies cookies) t0
    ∧ (t1 = []
       ∨ ∃ text v entries (w0 : world),
           fs_readFile (path p) (disk w) = Ok text
           ∧ JSON_parse text = Some v
           ∧ entries_of v = Ok entries
           ∧ t1 = (forOf entries restoreOrigin w0).2).
Proof.
  rewrite loadStorageState_action_split, run_bind, load_prelude_run. simpl.
  destruct (fs_readFile (path p) (disk w)) as [text|e] eqn:Hread.
  2:{ eexists _, []. rewrite app_nil_r. split_and!; [done| |by left].
      repeat constructor. }
  destruct (JSON_parse text) as [v|] eqn:Hparse.
  2:{ eexists _, []. rewrite app_nil_r. split_and!; [done| |by left].
      repeat constructor. }
  destruct (cookies ← Get v P_cookies;
            hasCookies ← nonempty_guard cookies;
            Ok (cookies, hasCookies)) as [[cookies hasCookies]|e].
  2:{ eexists _, []. rewrite app_nil_r. split_and!; [done| |by left].
      repeat constructor. }
  set (step := if hasCookies
               then let '(r, s1) := br_addCookies cookies (session w) in
                    (r, s1, [Event (CAddCookies cookies) (session w) (outcome r)])
               else (Ok (), session w, [])).
  assert (Forall (λ e : event, ev_call e = CReadFile (path p)
                               ∨ ∃ cookies, ev_call e = CAddCookies cookies)
            (Event (CReadFile (path p)) (session w) None :: step.2)) as Ht0.
  { constructor; [simpl; by left|]. subst step. destruct hasCookies; [|constructor].
    destruct (br_addCookies cookies (session w)). constructor; [|constructor].
    simpl. right. by eexists. }
  destruct step as [[[[]|e] s1] t_c]; simpl in Ht0.
  2:{ eexists _, []. rewrite app_nil_r. split_and!; [done|done|by left]. }
  destruct (Get v P_origins) as [origins|e] eqn:Ho.
  2:{ rewrite rbind_Err. eexists _, []. rewrite app_nil_r.
      split_and!; [done|done|by left]. }
  rewrite rbind_Ok.
  destruct (if ToBoolean origins
            then l ← iterate origins; collect_origins l []
            else Ok []) as [visited|e].
  2:{ rewrite rbind_Err. eexists _, []. rewrite app_nil_r.
      split_and!; [done|done|by left]. }
  rewrite rbind_Ok.
  destruct (iterate (if ToBoolean origins then origins else VArr []))
    as [entries|e] eqn:Hit.
  2:{ eexists _, []. rewrite app_nil_r. split_and!; [done|done|by left]. }
  rewrite run_bind.
  exists (Event (CReadFile (path p)) (session w) None :: t_c),
         (forOf entries restoreOrigin (World s1 (disk w))).2.
  split_and!; [|done|].
  - destruct (forOf entries restoreOrigin (World s1 (disk w)))
      as [[[[]|e] w2] t2]; simpl; by rewrite ?app_nil_r.
  - right. exists text, v, entries, (World s1 (disk w)).
    split_and!; [done..| |done]. unfold entries_of. by rewrite Ho, rbind_Ok.
Qed.

(** Every script evaluation a load issues, whatever the path and the
    content of the file, passes the same function, [setItems], which is
    fixed by the tool and mentions neither the path nor the document; no
    evaluation is given source text.  The data travels as the argument of
    the call: it is the [localStorage] value of one of the entries of the
    parsed document, as parsed. *)
Lemma load_evaluates_a_fixed_function
    (p : params) (w : world) (e : event) (script : page_script) (arg : value) :
  e ∈ (loadStorageState_action p w).2 ->
  ev_call e = CEvaluate script arg ->
  script = ScriptFunction SetItems
  ∧ ∃ text v entries x,
      fs_readFile (path p) (disk w) = Ok text
      ∧ JSON_parse text = Some v
      ∧ entries_of v = Ok entries
      ∧ x ∈ entries
      ∧ Get x P_localStorage = Ok arg.
Proof.
  intros He Hcall.
  destruct (loadStorageState_action_trace p w) as (t0 & t1 & Ht & Ht0 & Ht1).
  rewrite Ht in He. apply elem_of_app in He as [He|He].
  - eapply Forall_forall in Ht0; [|done].
    destruct Ht0 as [?|[? ?]]; congruence.
  - destruct Ht1 as [->|(text & v & entries & w0 & Hread & Hparse & Hent & ->)];
      [by apply elem_of_nil in He|].
    pose proof (forOf_restoreOrigin_emits entries w0) as Hloop.
    eapply Forall_forall in Hloop; [|done]. simpl in Hloop.
    destruct Hloop as [?|[[? ?]|(arg' & Hc & x & Hx & Hls)]]; [congruence..|].
    rewrite Hcall in Hc. injection Hc as -> ->.
    split; [done|]. by exists text, v, entries, x.
Qed.




(** The handlers: without a current tab nothing is built; with one, the
    listing returned for display quotes the path, and the action is the
    one above.  The listing is text handed back to the caller; it is not
    what the page evaluates. *)
Lemma handlers_need_a_tab (capture : bool) (p : params) :
  loadStorageState (S:=S) (D:=D) capture {| hasCurrentTab := false |} p
    = Err NoCurrentTab
  ∧ saveStorageState (S:=S) (D:=D) {| hasCurrentTab := false |} p
    = Err NoCurrentTab.
Proof. done. Qed.

Lemma handlers_list_the_path (capture : bool) (p : params) :
  code <$> loadStorageState (S:=S) (D:=D) capture {| hasCurrentTab := true |} p
    = Ok [ js "// Load storage state from " ++ path p;
           js "// Note: In Playwright, storage state is typically loaded when creating a new context" ]
  ∧ code <$> saveStorageState (S:=S) (D:=D) {| hasCurrentTab := true |} p
    = Ok [ js "// Save storage state to " ++ path p;
           js "await context.storageState({ path: '" ++ path p ++ js "' });" ].
Proof. done. Qed.

(** C6 (as amended). What is evaluated in the page is never built from
    user-supplied text: every script evaluation that the action of the
    load tool issues passes the same function, [setItems], fixed by the
    tool, and its data, the [localStorage] value of an entry of the
    parsed document, travels as the argument of the call; the action of
    the save tool evaluates nothing in the page.  The path is spliced
    into code text all the same, in the [code] listing that each handler
    returns for display: the listing of the load tool carries it in a
    comment line, the listing of the save tool between the quotes of a
    string literal.  The tools hand these listings back; they do not
    evaluate them. *)
Theorem evaluated_code_is_fixed_and_listings_splice_the_path
    (capture : bool) (ctx : context) (p : params) :
  hasCurrentTab ctx = true ->
  ∃ rl rs : tool_result,
    loadStorageState capture ctx p = Ok rl
    ∧ saveStorageState ctx p = Ok rs
    ∧ (∀ (w : world) (e : event) script arg,
         e ∈ (action rl w).2 ->
         ev_call e = CEvaluate script arg ->
         script = ScriptFunction SetItems
         ∧ ∃ text v entries x,
             fs_readFile (path p) (disk w) = Ok text
             ∧ JSON_parse text = Some v
             ∧ entries_of v = Ok entries
             ∧ x ∈ entries
             ∧ Get x P_localStorage = Ok arg)
    ∧ (∀ (w : world) (e : event), e ∈ (action rs w).2 -> ¬ is_evaluate e)
    ∧ code rl
      = [ js "// Load storage state from " ++ path p;
          js "// Note: In Playwright, storage state is typically loaded when creating a new context" ]
    ∧ code rs
      = [ js "// Save storage state to " ++ path p;
          js "await context.storageState({ path: '" ++ path p ++ js "' });" ].
Proof.
  intros Htab. unfold loadStorageState, saveStorageState, currentTabOrDie.
  rewrite Htab, !rbind_Ok. eexists _, _. split_and!; [done|done| | |done|done].
  - intros w e script arg He Hcall. simpl in He.
    by apply (load_evaluates_a_fixed_function p w e).
  - intros w e He. simpl in He. rewrite saveStorageState_action_run in He.
    simpl in He. intros (script & arg & Hcall).
    destruct (br_storageState (session w)) as [state|err]; simpl in He.
    + destruct (fs_mkdir (path_dirname (path p)) true (disk w)) as [[[]|err] d1];
        simpl in He.
      * destruct (match JSON_stringify state with
                  | Some text => fs_writeFile (path p) text d1
                  | None => (Err TypeError, d1)
                  end) as [r d2]; simpl in He.
        repeat (apply elem_of_cons in He as [->|He]; [done|]).
        by apply elem_of_nil in He.
      * repeat (apply elem_of_cons in He as [->|He]; [done|]).
        by apply elem_of_nil in He.
    + repeat (apply elem_of_cons in He as [->|He]; [done|]).
      by apply elem_of_nil in He.
Qed.



Lemma load_prelude_ok (p : params) (w w0 : world) (entries : list value)
    (t0 : list event) :
  load_prelude p w = (Ok entries, w0, t0) ->
  ∃ text v,
    fs_readFile (path p) (disk w) = Ok text
    ∧ JSON_parse text = Some v
    ∧ entries_of v = Ok entries.
Proof.
  rewrite load_prelude_run. simpl.
  destruct (fs_readFile (path p) (disk w)) as [text|e] eqn:Hread; [|done].
  destruct (JSON_parse text) as [v|] eqn:Hparse; [|done].
  destruct (cookies ← Get v P_cookies;
            hasCookies ← nonempty_guard cookies;
            Ok (cookies, hasCookies)) as [[cookies hasCookies]|e]; [|done].
  destruct (if hasCookies
            then let '(r, s1) := br_addCookies cookies (session w) in
                 (r, s1, [Event (CAddCookies cookies) (session w) (outcome r)])
            else (Ok (), session w, [])) as [[[[]|e] s1] t_c]; [|done].
  intros [= Hent _ _]. exists text, v. split_and!; [done..|].
  unfold entries_of. destruct (Get v P_origins) as [origins|e]; [|done].
  rewrite !rbind_Ok in *.
  destruct (if ToBoolean origins
            then l ← iterate origins; collect_origins l []
            else Ok []) as [visited|e]; [|done].
  by rewrite rbind_Ok in Hent.
Qed.



End Load.

(** ** Loading into the simulated tab *)

Section SimLoad.
Context `{Builtins} {D : Type} `{FileSystem D} (W : Sim.web).

#[local] Instance tab_of_web : Browser Sim.tab := Sim.browser W.

Local Abbreviation event := (@event Sim.tab).
Local Abbreviation world := (@world Sim.tab D).

Lemma last_write_nil_inv (item : value) (rest : list value) (k : jsstring) :
  last_write (item :: rest) k = None ->
  last_write rest k = None
  ∧ ∀ k' v, setItem_args item = Ok (k', v) -> k' ≠ k.
Proof.
  simpl. destruct (last_write rest k); [done|]. intros Hitem. split; [done|].
  intros k' v Hargs. rewrite Hargs in Hitem. by destruct (decide (k' = k)).
Qed.

(** Items that do not name [k] leave it alone, also when the loop throws
    part of the way. *)
Lemma setItems_loop_keeps (items : list value) (st st' : storage)
    (r : result unit) (k : jsstring) :
  setItems_loop items st = (r, st') ->
  last_write items k = None ->
  st' !! k = st !! k.
Proof.
  revert st. induction items as [|item rest IH]; intros st; simpl.
  - by intros [= _ <-].
  - intros Hrun Hlast. apply last_write_nil_inv in Hlast as [Hrest Hitem].
    destruct (setItem_args item) as [[k' v]|e] eqn:Hargs.
    + rewrite (IH _ Hrun Hrest). unfold localStorage_setItem.
      apply lookup_insert_ne. by eapply Hitem.
    + by injection Hrun as _ <-.
Qed.

(** When the loop completes, [k] holds what its last item gave it. *)
Lemma setItems_loop_last (items : list value) (st st' : storage)
    (k v : jsstring) :
  setItems_loop items st = (Ok (), st') ->
  last_write items k = Some v ->
  st' !! k = Some v.
Proof.
  revert st. induction items as [|item rest IH]; intros st; simpl; [done|].
  destruct (setItem_args item) as [[k' v']|e] eqn:Hargs; [|done].
  intros Hrun. destruct (last_write rest k) as [v0|] eqn:Hrest.
  - intros [= <-]. by eapply IH.
  - destruct (decide (k' = k)) as [->|]; [|done]. intros [= <-].
    rewrite (setItems_loop_keeps _ _ _ _ _ Hrun Hrest).
    apply lookup_insert_eq.
Qed.









End SimLoad.

(** ** Saving to the simulated disk *)

Section SimSave.
Context `{Builtins} (W : Sim.web).

#[local] Instance tab_for_save : Browser Sim.tab := Sim.browser W.
#[local] Existing Instance Sim.filesystem.

(** [mkdir -p]: when none of the directories to make is a file, all of
    them are directories afterwards and nothing else has changed. *)
Lemma mkdir_p_ok (done rest : list jsstring) (d : Sim.files) :
  (∀ n text, (0 < n ≤ length rest)%nat ->
             d !! (done ++ take n rest) ≠ Some (Sim.File text)) ->
  ∃ d',
    Sim.mkdir_p done rest d = (Ok (), d')
    ∧ (∀ n, (0 < n ≤ length rest)%nat -> d' !! (done ++ take n rest) = Some Sim.Dir)
    ∧ (∀ k, (∀ n, (0 < n ≤ length rest)%nat -> k ≠ done ++ take n rest) ->
            d' !! k = d !! k).
Proof.
  revert done d. induction rest as [|c rest IH]; intros done d Hfiles; simpl.
  - exists d. split_and!; [done|intros n ?; lia|done].
  - assert (∀ text, d !! (done ++ [c]) ≠ Some (Sim.File text)) as Hhere.
    { intros text. apply (Hfiles 1%nat text). simpl. lia. }
    destruct (IH (done ++ [c]) (<[done ++ [c] := Sim.Dir]> d)) as (d' & Hrun & Hdirs & Hrest).
    { intros n text Hn. rewrite <- app_assoc. simpl.
      destruct (decide (n = 0)%nat) as [->|Hn0]; [lia|].
      rewrite lookup_insert_ne.
      - apply (Hfiles (Datatypes.S n) text). simpl. lia.
      - intros Heq. apply (f_equal length) in Heq.
        rewrite ?length_app in Heq. simpl in Heq.
        rewrite ?length_take in Heq. lia. }
    exists d'. split_and!.
    + destruct (d !! (done ++ [c])) as [[|text]|] eqn:Hlook; [done| |done].
      by destruct (Hhere text).
    + intros n Hn. destruct n as [|n]; [lia|]. simpl.
      destruct (decide (n = 0)%nat) as [->|Hn0].
      * rewrite take_0, Hrest.
        -- apply lookup_insert_eq.
        -- intros m Hm Heq. apply (f_equal length) in Heq.
           rewrite <- ?app_assoc, ?length_app in Heq. simpl in Heq.
           rewrite ?length_app, ?length_take in Heq. simpl in Heq. lia.
      * specialize (Hdirs n). rewrite <- app_assoc in Hdirs. simpl in Hdirs.
        apply Hdirs. simpl in Hn. lia.
    + intros k Hk. rewrite Hrest.
      * apply lookup_insert_ne. intros <-. apply (Hk 1%nat); simpl; [lia|].
        by rewrite take_0.
      * intros n Hn. rewrite <- app_assoc. simpl.
        apply (Hk (Datatypes.S n)). simpl. lia.
Qed.

(** Saving to a path whose directory resolves to the parent of what the
    path resolves to, on a disk where no directory on the way is a file
    and the target is not a directory: the save succeeds, every directory
    on the way exists afterwards, the target holds the JSON text of the
    state whatever it held before, and the rest of the disk is as it
    was. *)
Lemma save_on_simulated_disk (p : params) (s : Sim.tab) (d : Sim.files)
    (state : value) (text : jsstring) :
  Sim.storageState s = Ok state ->
  JSON_stringify state = Some text ->
  let dir := Sim.resolve (path_dirname (path p)) in
  let target := Sim.resolve (path p) in
  target ≠ [] ->
  Sim.parent target = dir ->
  (∀ n text', (0 < n ≤ length dir)%nat -> d !! take n dir ≠ Some (Sim.File text')) ->
  d !! target ≠ Some Sim.Dir ->
  ∃ d2,
    saveStorageState_action p (World s d)
    = (Ok (js "Storage state saved to " ++ path p), World s d2,
       [Event CStorageState s None;
        Event (CMkdir (path_dirname (path p)) true) s None;
        Event (CWriteFile (path p) (Some text)) s None])
    ∧ d2 !! target = Some (Sim.File text)
    ∧ (∀ n, (0 < n ≤ length dir)%nat -> d2 !! take n dir = Some Sim.Dir)
    ∧ (∀ k, k ≠ target -> (∀ n, (0 < n ≤ length dir)%nat -> k ≠ take n dir) ->
            d2 !! k = d !! k).
Proof.
  intros Hstate Htext dir target.
  assert (Sim.resolve (path_dirname (path p)) = dir) as Edir by done.
  assert (Sim.resolve (path p) = target) as Etarget by done.
  clearbody dir target. intros Hne Hparent Hfiles Htarget.
  destruct (mkdir_p_ok [] dir d) as (d1 & Hmk & Hdirs & Hrest); [done|].
  simpl in Hdirs, Hrest.
  assert (length target = Datatypes.S (length dir)) as Hlen.
  { rewrite <- Hparent. unfold Sim.parent.
    rewrite (app_removelast_last [] Hne) at 1.
    rewrite length_app. simpl. lia. }
  assert (∀ n, target ≠ take n dir) as Hdeeper.
  { intros n Heq. apply (f_equal length) in Heq.
    rewrite length_take in Heq. lia. }
  assert (d1 !! target = d !! target) as Hsame by (apply Hrest; auto).
  assert (Sim.is_dir d1 target = false) as Hnodir.
  { unfold Sim.is_dir. destruct target as [|c l]; [done|]. rewrite Hsame.
    by destruct (d !! (c :: l)) as [[|?]|]. }
  assert (Sim.is_dir d1 dir = true) as Hdir.
  { unfold Sim.is_dir. destruct dir as [|c l] eqn:Eq; [done|].
    rewrite <- (firstn_all (c :: l)), Hdirs; [done|simpl; lia]. }
  exists (<[target := Sim.File text]> d1). split_and!.
  - assert (fs_mkdir (path_dirname (path p)) true d = (Ok (), d1)) as Hmkdir.
    { simpl. unfold Sim.mkdir. by rewrite Edir. }
    assert (fs_writeFile (path p) text d1
            = (Ok (), <[target := Sim.File text]> d1)) as Hwrite.
    { simpl. unfold Sim.writeFile. by rewrite Etarget, Hnodir, Hparent, Hdir. }
    rewrite saveStorageState_action_run.
    cbn [session disk br_storageState tab_for_save Sim.browser].
    by rewrite Hstate, Hmkdir, Htext, Hwrite.
  - apply lookup_insert_eq.
  - intros n Hn. rewrite lookup_insert_ne; [by apply Hdirs|apply Hdeeper].
  - intros k Hk Hways. rewrite lookup_insert_ne; [by apply Hrest|done].
Qed.

End SimSave.

(** ** Edges of the two actions *)

Section Edges.
Context `{Builtins} {S D : Type} `{Browser S} `{FileSystem D}.

Local Abbreviation M := (@M S D).
Local Abbreviation event := (@event S).
Local Abbreviation world := (@world S D).

(** The calls of a load: the file is read, then the cookies are added
    when the test on them passes, then come the calls of the loop. *)
Lemma loadStorageState_action_calls (p : params) (w : world) :
  ∃ r tc tl,
    (loadStorageState_action p w).2
    = Event (CReadFile (path p)) (session w) r :: tc ++ tl
    ∧ (tc = []
       ∨ ∃ text v cookies,
           fs_readFile (path p) (disk w) = Ok text
           ∧ JSON_parse text = Some v
           ∧ Get v P_cookies = Ok cookies
           ∧ nonempty_guard cookies = Ok true
           ∧ tc = [Event (CAddCookies cookies) (session w)
                     (outcome (br_addCookies cookies (session w)).1)])
    ∧ Forall (λ e : event, ev_call e = CUrl ∨ (∃ url, ev_call e = CGoto url)
                           ∨ is_evaluate e) tl.
Proof.
  rewrite loadStorageState_action_split, run_bind, load_prelude_run. simpl.
  destruct (fs_readFile (path p) (disk w)) as [text|e] eqn:Hread.
  2:{ exists (Some e), [], []. split_and!; [done|by left|constructor]. }
  destruct (JSON_parse text) as [v|] eqn:Hparse.
  2:{ exists None, [], []. split_and!; [done|by left|constructor]. }
  destruct (Get v P_cookies) as [cookies|e] eqn:Hc.
  2:{ exists None, [], []. split_and!; [done|by left|constructor]. }
  rewrite rbind_Ok.
  destruct (nonempty_guard cookies) as [hasCookies|e] eqn:Hg.
  2:{ exists None, [], []. split_and!; [done|by left|constructor]. }
  rewrite rbind_Ok.
  assert (∀ (s1 : S) (tc : list event),
    ∃ tl,
      (let '(r0, w0, t0) :=
         (origins ← Get v P_origins;
          (if ToBoolean origins
           then l ← iterate origins; collect_origins l []
           else Ok []);;
          iterate (if ToBoolean origins then origins else VArr []),
          World s1 (disk w), Event (CReadFile (path p)) (session w) None :: tc) in
       match r0 with
       | Ok a =>
           let '(r1, w2, t2) :=
             (forOf a restoreOrigin;;
              mret (js "Storage state loaded from " ++ path p)) w0 in
           (r1, w2, t0 ++ t2)
       | Err e => (Err e, w0, t0)
       end).2 = Event (CReadFile (path p)) (session w) None :: tc ++ tl
      ∧ Forall (λ e : event, ev_call e = CUrl ∨ (∃ url, ev_call e = CGoto url)
                             ∨ is_evaluate e) tl) as Hloop.
  { intros s1 tc.
    destruct (origins ← Get v P_origins;
              (if ToBoolean origins
               then l ← iterate origins; collect_origins l []
               else Ok []);;
              iterate (if ToBoolean origins then origins else VArr []))
      as [entries|e].
    2:{ exists []. rewrite app_nil_r. split; [done|constructor]. }
    rewrite run_bind.
    pose proof (forOf_restoreOrigin_emits entries (World s1 (disk w))) as Hemits.
    assert (Forall (λ e : event, ev_call e = CUrl ∨ (∃ url, ev_call e = CGoto url)
                                 ∨ is_evaluate e)
              (forOf entries restoreOrigin (World s1 (disk w))).2) as Htl.
    { eapply Forall_impl; [exact Hemits|]. simpl.
      intros ev [?|[?|(arg & ? & _)]]; [by left|by right; left|].
      right; right. by eexists _, _. }
    destruct (forOf entries restoreOrigin (World s1 (disk w))) as [[[[]|e] w2] t2];
      simpl in *; exists t2; by rewrite ?app_nil_r. }
  destruct hasCookies.
  - destruct (br_addCookies cookies (session w)) as [[[]|e] s1] eqn:Hadd; simpl.
    + destruct (Hloop s1 [Event (CAddCookies cookies) (session w) None])
        as (tl & Heq & Htl).
      eexists None, _, tl. split_and!; [exact Heq| |done].
      right. exists text, v, cookies. by rewrite Hadd.
    + eexists None, _, []. rewrite app_nil_r. split_and!; [done| |constructor].
      right. exists text, v, cookies. by rewrite Hadd.
  - simpl. destruct (Hloop (session w) []) as (tl & Heq & Htl).
    exists None, [], tl. split_and!; [exact Heq|by left|done].
Qed.

(** X1. When the file cannot be read, the load fails with the error of
    [readFile]; reading was its only call, so the session is untouched,
    and the world is as before. *)
Theorem load_reports_unreadable_file (p : params) (w : world) (e : error) :
  fs_readFile (path p) (disk w) = Err e ->
  loadStorageState_action p w
  = (Err e, w, [Event (CReadFile (path p)) (session w) (Some e)]).
Proof.
  intros Hread.
  rewrite loadStorageState_action_split, run_bind, load_prelude_run. simpl.
  by rewrite Hread.
Qed.

(** X2. A document that is valid JSON but not an object: [null] makes
    the load fail with a [TypeError] (not a [SyntaxError]), thrown by the
    read of [cookies]; a number, a string, a boolean or an array loads
    successfully, as a snapshot with nothing in it.  Either way reading
    the file is the only call. *)
Theorem load_of_a_document_that_is_not_an_object
    (p : params) (w : world) (text : jsstring) (v : value) :
  fs_readFile (path p) (disk w) = Ok text ->
  JSON_parse text = Some v ->
  (∀ props, v ≠ VObj props) ->
  loadStorageState_action p w
  = (match v with
     | VUndefined | VNull => Err TypeError
     | _ => Ok (js "Storage state loaded from " ++ path p)
     end, w, [Event (CReadFile (path p)) (session w) None]).
Proof.
  intros Hread Hparse Hobj.
  rewrite loadStorageState_action_split, run_bind, load_prelude_run. simpl.
  rewrite Hread, Hparse.
  destruct v as [| |b|q|s|l|props]; simpl; try done; try (by destruct w).
  by destruct (Hobj props).
Qed.


(** X3. Empty arrays are skipped: with [cookies] an empty array no
    [addCookies] is issued in the whole run; with [origins] an empty array
    the run issues nothing after the cookies (no URL read, navigation or
    evaluation); with both, the load succeeds, reading the file is its
    only call and the world is as before. *)
Theorem load_skips_empty_arrays
    (p : params) (w : world) (text : jsstring) (v : value) :
  fs_readFile (path p) (disk w) = Ok text ->
  JSON_parse text = Some v ->
  let run := loadStorageState_action p w in
  (Get v P_cookies = Ok (VArr []) ->
   Forall (λ e : event, ∀ cookies, ev_call e ≠ CAddCookies cookies) run.2)
  ∧ (Get v P_origins = Ok (VArr []) ->
     Forall (λ e : event, ev_call e = CReadFile (path p)
                          ∨ ∃ cookies, ev_call e = CAddCookies cookies) run.2)
  ∧ (Get v P_cookies = Ok (VArr []) ->
     Get v P_origins = Ok (VArr []) ->
     run = (Ok (js "Storage state loaded from " ++ path p), w,
            [Event (CReadFile (path p)) (session w) None])).
Proof.
  intros Hread Hparse run. subst run. split_and!.
  - intros Hc.
    destruct (loadStorageState_action_calls p w) as (r & tc & tl & -> & Htc & Htl).
    assert (tc = []) as ->.
    { destruct Htc as [->|(text' & v' & cookies & Hread' & Hparse' & Hc' & Hg & _)];
        [done|exfalso].
      rewrite Hread in Hread'. injection Hread' as <-.
      rewrite Hparse in Hparse'. injection Hparse' as <-.
      rewrite Hc in Hc'. injection Hc' as <-.
      by rewrite nonempty_guard_array in Hg. }
    constructor; [done|]. simpl.
    eapply Forall_impl; [exact Htl|]. simpl.
    intros ev [Hev|[[url Hev]|(script & arg & Hev)]] cookies; rewrite Hev; done.
  - intros Ho.
    destruct (loadStorageState_action_trace p w) as (t0 & t1 & -> & Ht0 & Ht1).
    destruct Ht1 as [->|(text' & v' & entries & w0 & Hread' & Hparse' & Hent & ->)];
      [by rewrite app_nil_r|].
    rewrite Hread in Hread'. injection Hread' as <-.
    rewrite Hparse in Hparse'. injection Hparse' as <-.
    unfold entries_of in Hent. rewrite Ho in Hent. simpl in Hent.
    injection Hent as <-. simpl. by rewrite app_nil_r.
  - intros Hc Ho.
    rewrite loadStorageState_action_split, run_bind, load_prelude_run. simpl.
    rewrite Hread, Hparse, Hc, rbind_Ok, nonempty_guard_array, rbind_Ok. simpl.
    rewrite Ho. simpl. by destruct w.
Qed.

(** Building the set of origins fails: the load stops after the cookies
    and before the loop. *)
Lemma load_stops_before_the_loop
    (p : params) (w : world) (text : jsstring) (v origins : value) (e0 : error) :
  fs_readFile (path p) (disk w) = Ok text ->
  JSON_parse text = Some v ->
  Get v P_origins = Ok origins ->
  (if ToBoolean origins
   then l ← iterate origins; collect_origins l []
   else Ok []) = Err e0 ->
  let run := loadStorageState_action p w in
  (∃ e, run.1.1 = Err e)
  ∧ Forall (λ ev : event, ev_call ev = CReadFile (path p)
                          ∨ ∃ cookies, ev_call ev = CAddCookies cookies) run.2
  ∧ (Forall succeeded run.2 -> run.1.1 = Err TypeError).
Proof.
  intros Hread Hparse Ho Hbad run. subst run.
  assert (e0 = TypeError) as ->.
  { destruct (ToBoolean origins); [|done].
    destruct (iterate origins) as [l|e'] eqn:Hit.
    - rewrite rbind_Ok in Hbad. exact (collect_origins_err _ _ _ Hbad).
    - rewrite rbind_Err in Hbad. injection Hbad as <-. exact (iterate_err _ _ Hit). }
  rewrite loadStorageState_action_split, run_bind, load_prelude_run. simpl.
  rewrite Hread, Hparse.
  destruct (Get v P_cookies) as [cookies|e] eqn:Hc.
  2:{ rewrite rbind_Err. simpl. split_and!; [by eexists|repeat constructor|].
      intros _. f_equal. exact (Get_err _ _ _ Hc). }
  rewrite rbind_Ok.
  destruct (nonempty_guard cookies) as [hasCookies|e] eqn:Hg.
  2:{ rewrite rbind_Err. simpl. split_and!; [by eexists|repeat constructor|].
      intros _. f_equal. exact (nonempty_guard_err _ _ Hg). }
  rewrite rbind_Ok.
  destruct hasCookies.
  - destruct (br_addCookies cookies (session w)) as [[[]|e] s1]; simpl.
    + rewrite Ho, rbind_Ok, Hbad, rbind_Err. simpl.
      split_and!; [by eexists| |done].
      constructor; [by left|]. constructor; [right; by eexists|constructor].
    + split_and!; [by eexists| |].
      * constructor; [by left|]. constructor; [right; by eexists|constructor].
      * intros Hall. apply Forall_cons in Hall as [_ Hall].
        apply Forall_cons in Hall as [Hev _]. done.
  - simpl. rewrite Ho, rbind_Ok, Hbad, rbind_Err. simpl.
    split_and!; [by eexists|repeat constructor|done].
Qed.

Lemma collect_origins_null (l acc : list value) :
  VNull ∈ l -> ∃ e, collect_origins l acc = Err e.
Proof.
  revert acc. induction l as [|x l IH]; intros acc Hin; [by apply elem_of_nil in Hin|].
  simpl. apply elem_of_cons in Hin as [<-|Hin]; [by eexists|].
  destruct (Get x P_origin) as [o|e]; [|by eexists].
  rewrite rbind_Ok. by apply IH.
Qed.

(** X4. A [null] anywhere among the entries of [origins] makes the load
    fail before its main loop: the run issues no URL read, navigation or
    script evaluation, not even for the entries that come before the
    [null], because the set of origins is built over all entries first.
    The cookies have been dealt with by then; when no call was rejected,
    the error is a [TypeError]. *)
Theorem load_with_a_null_entry
    (p : params) (w : world) (text : jsstring) (v : value) (l : list value) :
  fs_readFile (path p) (disk w) = Ok text ->
  JSON_parse text = Some v ->
  Get v P_origins = Ok (VArr l) ->
  VNull ∈ l ->
  let run := loadStorageState_action p w in
  (∃ e, run.1.1 = Err e)
  ∧ Forall (λ ev : event, ev_call ev = CReadFile (path p)
                          ∨ ∃ cookies, ev_call ev = CAddCookies cookies) run.2
  ∧ (Forall succeeded run.2 -> run.1.1 = Err TypeError).
Proof.
  intros Hread Hparse Ho Hnull.
  destruct (collect_origins_null l [] Hnull) as [e0 Hbad].
  by apply (load_stops_before_the_loop p w text v (VArr l) e0).
Qed.

(** X5. When [origins] is truthy but cannot be iterated (an object, a
    number, [true]), the load fails after the cookies and before any URL
    read, navigation or script evaluation; when no call was rejected, the
    error is a [TypeError]. *)
Theorem load_with_origins_that_cannot_be_iterated
    (p : params) (w : world) (text : jsstring) (v origins : value) (e0 : error) :
  fs_readFile (path p) (disk w) = Ok text ->
  JSON_parse text = Some v ->
  Get v P_origins = Ok origins ->
  ToBoolean origins = true ->
  iterate origins = Err e0 ->
  let run := loadStorageState_action p w in
  (∃ e, run.1.1 = Err e)
  ∧ Forall (λ ev : event, ev_call ev = CReadFile (path p)
                          ∨ ∃ cookies, ev_call ev = CAddCookies cookies) run.2
  ∧ (Forall succeeded run.2 -> run.1.1 = Err TypeError).
Proof.
  intros Hread Hparse Ho Htruthy Hit.
  apply (load_stops_before_the_loop p w text v origins e0); [done..|].
  by rewrite Htruthy, Hit.
Qed.

(** The loop body and the loop leave the disk alone. *)
Lemma restoreOrigin_disk (x : value) (w : world) :
  disk (restoreOrigin x w).1.2 = disk w.
Proof.
  rewrite restoreOrigin_run. simpl.
  destruct (Get x P_origin) as [origin|e]; [|done].
  destruct (ToString origin) as [search|e]; [|done].
  destruct (startsWith (br_url (session w)) search).
  - destruct (Get x P_localStorage) as [ls|e]; [|done]. rewrite rbind_Ok.
    destruct (nonempty_guard ls) as [[]|e]; [|done..]. rewrite rbind_Ok.
    by destruct (br_evaluate (ScriptFunction SetItems) ls (session w)).
  - destruct (br_goto origin (session w)) as [[[]|e] s1]; [|done].
    destruct (Get x P_localStorage) as [ls|e]; [|done]. rewrite rbind_Ok.
    destruct (nonempty_guard ls) as [[]|e]; [|done..]. rewrite rbind_Ok.
    by destruct (br_evaluate (ScriptFunction SetItems) ls s1).
Qed.

Lemma forOf_restoreOrigin_disk (l : list value) (w : world) :
  disk (forOf l restoreOrigin w).1.2 = disk w.
Proof.
  revert w. induction l as [|x l IH]; intros w; [done|]. simpl.
  rewrite run_bind. pose proof (restoreOrigin_disk x w) as Hx.
  destruct (restoreOrigin x w) as [[[[]|e] w1] t1]; [|done].
  specialize (IH w1). destruct (forOf l restoreOrigin w1) as [[r w2] t2].
  simpl in *. congruence.
Qed.

Lemma load_prelude_disk (p : params) (w : world) :
  disk (load_prelude p w).1.2 = disk w.
Proof.
  rewrite load_prelude_run. simpl.
  destruct (fs_readFile (path p) (disk w)) as [text|e]; [|done].
  destruct (JSON_parse text) as [v|]; [|done].
  destruct (cookies ← Get v P_cookies;
            hasCookies ← nonempty_guard cookies;
            Ok (cookies, hasCookies)) as [[cookies []]|e]; [| |done].
  - by destruct (br_addCookies cookies (session w)) as [[[]|e] s1].
  - done.
Qed.

(** X6. Whatever the outcome, a load leaves the disk as it found it: its
    first call is the read of the file at the path, and every other call
    is made on the session. *)
Theorem load_only_reads_the_disk (p : params) (w : world) :
  let run := loadStorageState_action p w in
  disk run.1.2 = disk w
  ∧ ∃ r rest,
      run.2 = Event (CReadFile (path p)) (session w) r :: rest
      ∧ Forall (λ e : event, session_call (ev_call e)) rest.
Proof.
  intros run. subst run. split.
  - rewrite loadStorageState_action_split, run_bind.
    pose proof (load_prelude_disk p w) as Hpre.
    destruct (load_prelude p w) as [[[entries|e] w0] t0]; [|done].
    rewrite run_bind. pose proof (forOf_restoreOrigin_disk entries w0) as Hloop.
    destruct (forOf entries restoreOrigin w0) as [[[[]|e] w1] t1];
      simpl in *; congruence.
  - destruct (loadStorageState_action_calls p w) as (r & tc & tl & -> & Htc & Htl).
    exists r, (tc ++ tl). split; [done|]. apply Forall_app. split.
    + destruct Htc as [->|(? & ? & cookies & _ & _ & _ & _ & ->)]; by repeat constructor.
    + eapply Forall_impl; [exact Htl|]. simpl.
      intros ev [Hev|[[url Hev]|(script & arg & Hev)]]; by rewrite Hev.
Qed.


(** The script evaluations of one pass of the loop body. *)
Lemma restoreOrigin_evaluated (x : value) (w : world) :
  let run := restoreOrigin x w in
  omap evaluated run.2 `prefix_of` option_list (storage_to_inject x)
  ∧ (run.1.1 = Ok () ->
     omap evaluated run.2 = option_list (storage_to_inject x)
     ∧ omap url_read run.2 = [()]).
Proof.
  intros run. subst run. rewrite restoreOrigin_run. unfold storage_to_inject. simpl.
  destruct (Get x P_origin) as [origin|e]; [|split; [apply prefix_nil|done]].
  destruct (ToString origin) as [search|e]; [|split; [apply prefix_nil|done]].
  destruct (startsWith (br_url (session w)) search).
  - destruct (Get x P_localStorage) as [ls|e]; [|split; [apply prefix_nil|done]].
    rewrite rbind_Ok.
    destruct (nonempty_guard ls) as [[]|e]; [| |split; [apply prefix_nil|done]].
    + rewrite rbind_Ok.
      by destruct (br_evaluate (ScriptFunction SetItems) ls (session w)) as [r s2].
    + by rewrite rbind_Ok.
  - destruct (br_goto origin (session w)) as [[[]|e] s1];
      [|split; [apply prefix_nil|done]].
    destruct (Get x P_localStorage) as [ls|e]; [|split; [apply prefix_nil|done]].
    rewrite rbind_Ok.
    destruct (nonempty_guard ls) as [[]|e]; [| |split; [apply prefix_nil|done]].
    + rewrite rbind_Ok.
      by destruct (br_evaluate (ScriptFunction SetItems) ls s1) as [r s2].
    + by rewrite rbind_Ok.
Qed.

Lemma omap_cons_option_list {A B} (f : A -> option B) (x : A) (l : list A) :
  omap f (x :: l) = option_list (f x) ++ omap f l.
Proof. simpl. by destruct (f x). Qed.

Lemma forOf_restoreOrigin_evaluated (l : list value) (w : world) :
  let run := forOf l restoreOrigin w in
  omap evaluated run.2 `prefix_of` omap storage_to_inject l
  ∧ (run.1.1 = Ok () ->
     omap evaluated run.2 = omap storage_to_inject l
     ∧ length (omap url_read run.2) = length l).
Proof.
  revert w. induction l as [|x l IH]; intros w; [done|].
  cbn [forOf]. rewrite run_bind, omap_cons_option_list.
  destruct (restoreOrigin_evaluated x w) as [Hpre Hok].
  destruct (restoreOrigin x w) as [[[[]|e] w1] t1]; simpl in Hpre, Hok.
  - destruct (Hok eq_refl) as [Hev Hurl]. destruct (IH w1) as [Hpre' Hok'].
    destruct (forOf l restoreOrigin w1) as [[r w2] t2]. simpl in *.
    rewrite !omap_app, Hev, Hurl. split; [by apply prefix_app|].
    intros Hr. destruct (Hok' Hr) as [-> Hlen]. split; [done|].
    rewrite length_app, Hlen. done.
  - simpl. split; [by apply prefix_app_r|done].
Qed.

(** X7. The script evaluations of a load follow the entries of the
    document in sequence order, one for each entry whose [localStorage]
    passes the test, with that [localStorage] as its argument: in every
    run they are a prefix of that list, and in a run that succeeds they
    are the whole list and the URL was read once per entry. *)
Theorem load_injects_entries_in_order
    (p : params) (w : world) (text : jsstring) (v : value) (entries : list value) :
  fs_readFile (path p) (disk w) = Ok text ->
  JSON_parse text = Some v ->
  entries_of v = Ok entries ->
  let run := loadStorageState_action p w in
  omap evaluated run.2 `prefix_of` omap storage_to_inject entries
  ∧ (∀ msg, run.1.1 = Ok msg ->
       omap evaluated run.2 = omap storage_to_inject entries
       ∧ length (omap url_read run.2) = length entries).
Proof.
  intros Hread Hparse Hent run. subst run.
  rewrite loadStorageState_action_split, run_bind.
  destruct (load_prelude p w) as [[[entries'|e] w0] t0] eqn:Hpre.
  - assert (omap evaluated t0 = [] ∧ omap url_read t0 = []) as [Hev0 Hurl0].
    { rewrite load_prelude_run in Hpre. simpl in Hpre. rewrite Hread, Hparse in Hpre.
      destruct (cookies ← Get v P_cookies;
                hasCookies ← nonempty_guard cookies;
                Ok (cookies, hasCookies)) as [[cookies []]|e]; [| |done].
      - destruct (br_addCookies cookies (session w)) as [[[]|e] s1]; [|done].
        by injection Hpre as _ _ <-.
      - by injection Hpre as _ _ <-. }
    apply load_prelude_ok in Hpre as (text' & v' & Hread' & Hparse' & Hent').
    rewrite Hread in Hread'. injection Hread' as <-.
    rewrite Hparse in Hparse'. injection Hparse' as <-.
    rewrite Hent in Hent'. injection Hent' as <-.
    rewrite run_bind. destruct (forOf_restoreOrigin_evaluated entries w0) as [Hpre Hok].
    destruct (forOf entries restoreOrigin w0) as [[[[]|e] w1] t1]; simpl in *.
    + rewrite app_nil_r, !omap_app, Hev0, Hurl0. simpl. split; [done|].
      intros msg _. by apply Hok.
    + rewrite !omap_app, Hev0. simpl. split; [done|]. intros msg Hmsg. done.
  - assert (omap evaluated t0 = []) as Hev0.
    { rewrite load_prelude_run in Hpre. simpl in Hpre. rewrite Hread, Hparse in Hpre.
      destruct (cookies ← Get v P_cookies;
                hasCookies ← nonempty_guard cookies;
                Ok (cookies, hasCookies)) as [[cookies []]|e'];
        [| |by injection Hpre as _ _ <-].
      - destruct (br_addCookies cookies (session w)) as [[[]|e'] s1];
          by injection Hpre as _ _ <-.
      - by injection Hpre as _ _ <-. }
    simpl. rewrite Hev0. split; [apply prefix_nil|done].
Qed.

Lemma restoreOrigin_navigated (x : value) (w : world) :
  omap navigated (restoreOrigin x w).2 `sublist_of` option_list (entry_origin x).
Proof.
  rewrite restoreOrigin_run. unfold entry_origin. simpl.
  destruct (Get x P_origin) as [origin|e]; [|done].
  destruct (ToString origin) as [search|e]; [|by apply sublist_nil_l].
  destruct (startsWith (br_url (session w)) search).
  - destruct (Get x P_localStorage) as [ls|e]; [|by apply sublist_nil_l].
    rewrite rbind_Ok.
    destruct (nonempty_guard ls) as [[]|e]; [| |by apply sublist_nil_l].
    + rewrite rbind_Ok.
      destruct (br_evaluate (ScriptFunction SetItems) ls (session w)) as [r s2].
      by apply sublist_nil_l.
    + rewrite rbind_Ok. by apply sublist_nil_l.
  - destruct (br_goto origin (session w)) as [[[]|e] s1]; [|done].
    destruct (Get x P_localStorage) as [ls|e]; [|done].
    rewrite rbind_Ok.
    destruct (nonempty_guard ls) as [[]|e]; [| |done].
    + rewrite rbind_Ok.
      by destruct (br_evaluate (ScriptFunction SetItems) ls s1) as [r s2].
    + by rewrite rbind_Ok.
Qed.

Lemma forOf_restoreOrigin_navigated (l : list value) (w : world) :
  omap navigated (forOf l restoreOrigin w).2 `sublist_of` omap entry_origin l.
Proof.
  revert w. induction l as [|x l IH]; intros w; [done|].
  cbn [forOf]. rewrite run_bind, omap_cons_option_list.
  pose proof (restoreOrigin_navigated x w) as Hx.
  destruct (restoreOrigin x w) as [[[[]|e] w1] t1]; simpl in Hx.
  - specialize (IH w1). destruct (forOf l restoreOrigin w1) as [[r w2] t2].
    simpl in *. rewrite omap_app. by apply sublist_app.
  - simpl. by apply sublist_inserts_r.
Qed.

(** X8. The tab is sent nowhere but to the origins of the entries, in
    their order and at most once per entry: the targets of the
    navigations of a load, in the order they were issued, are a
    subsequence of the [origin] values of the entries of the document. *)
Theorem load_navigates_to_entry_origins_in_order
    (p : params) (w : world) (text : jsstring) (v : value) (entries : list value) :
  fs_readFile (path p) (disk w) = Ok text ->
  JSON_parse text = Some v ->
  entries_of v = Ok entries ->
  omap navigated (loadStorageState_action p w).2
  `sublist_of` omap entry_origin entries.
Proof.
  intros Hread Hparse Hent.
  destruct (loadStorageState_action_trace p w) as (t0 & t1 & -> & Ht0 & Ht1).
  assert (omap navigated t0 = []) as Hnav0.
  { clear Ht1. induction Ht0 as [|ev t0 Hev _ IH]; [done|].
    simpl. unfold navigated at 1.
    by destruct Hev as [->|[c ->]]. }
  rewrite omap_app, Hnav0. simpl.
  destruct Ht1 as [->|(text' & v' & entries' & w0 & Hread' & Hparse' & Hent' & ->)];
    [by apply sublist_nil_l|].
  rewrite Hread in Hread'. injection Hread' as <-.
  rewrite Hparse in Hparse'. injection Hparse' as <-.
  rewrite Hent in Hent'. injection Hent' as <-.
  apply forOf_restoreOrigin_navigated.
Qed.

(** Entries with the same [origin] and [localStorage] run alike. *)
Lemma restoreOrigin_same (x y : value) (s : S) (d1 d2 : D) :
  same_entry x y ->
  ∃ r s' t,
    restoreOrigin x (World s d1) = (r, World s' d1, t)
    ∧ restoreOrigin y (World s d2) = (r, World s' d2, t).
Proof.
  intros [Ho Hl]. rewrite !restoreOrigin_run. simpl. rewrite <- Ho, <- Hl.
  destruct (Get x P_origin) as [origin|e]; [|by eexists _, _, _].
  destruct (ToString origin) as [search|e]; [|by eexists _, _, _].
  destruct (startsWith (br_url s) search).
  - destruct (Get x P_localStorage) as [ls|e]; [|by eexists _, _, _].
    rewrite rbind_Ok.
    destruct (nonempty_guard ls) as [[]|e]; [| |by eexists _, _, _].
    + rewrite rbind_Ok.
      destruct (br_evaluate (ScriptFunction SetItems) ls s) as [r s2].
      by eexists _, _, _.
    + rewrite rbind_Ok. by eexists _, _, _.
  - destruct (br_goto origin s) as [[[]|e] s1]; [|by eexists _, _, _].
    destruct (Get x P_localStorage) as [ls|e]; [|by eexists _, _, _].
    rewrite rbind_Ok.
    destruct (nonempty_guard ls) as [[]|e]; [| |by eexists _, _, _].
    + rewrite rbind_Ok.
      destruct (br_evaluate (ScriptFunction SetItems) ls s1) as [r s2].
      by eexists _, _, _.
    + rewrite rbind_Ok. by eexists _, _, _.
Qed.

Lemma forOf_restoreOrigin_same (l1 l2 : list value) (s : S) (d1 d2 : D) :
  Forall2 same_entry l1 l2 ->
  ∃ r s' t,
    forOf l1 restoreOrigin (World s d1) = (r, World s' d1, t)
    ∧ forOf l2 restoreOrigin (World s d2) = (r, World s' d2, t).
Proof.
  intros Hl. revert s. induction Hl as [|x y l1 l2 Hxy Hl IH]; intros s.
  - by eexists _, _, _.
  - cbn [forOf]. rewrite !run_bind.
    destruct (restoreOrigin_same x y s d1 d2 Hxy) as (r & s' & t & -> & ->).
    destruct r as [[]|e]; [|by eexists _, _, _].
    destruct (IH s') as (r' & s'' & t' & -> & ->). by eexists _, _, _.
Qed.

Lemma collect_origins_same (l1 l2 acc : list value) :
  Forall2 same_entry l1 l2 -> collect_origins l1 acc = collect_origins l2 acc.
Proof.
  intros Hl. revert acc. induction Hl as [|x y l1 l2 [Ho _] Hl IH]; intros acc; [done|].
  simpl. rewrite <- Ho. destruct (Get x P_origin) as [o|e]; [|done].
  rewrite !rbind_Ok. apply IH.
Qed.

(** X9. A load reads nothing of the document but [cookies], [origins]
    and, in each entry, [origin] and [localStorage].  Two files whose
    documents agree on these give the same result, the same calls on the
    same sessions and the same final session; a [sessionStorage] in an
    entry, for one, changes nothing. *)
Theorem load_ignores_other_fields
    (p : params) (s : S) (d1 d2 : D) (text1 text2 : jsstring) (v1 v2 o1 o2 : value) :
  fs_readFile (path p) d1 = Ok text1 ->
  fs_readFile (path p) d2 = Ok text2 ->
  JSON_parse text1 = Some v1 ->
  JSON_parse text2 = Some v2 ->
  Get v1 P_cookies = Get v2 P_cookies ->
  Get v1 P_origins = Ok o1 ->
  Get v2 P_origins = Ok o2 ->
  same_origins o1 o2 ->
  let run1 := loadStorageState_action p (World s d1) in
  let run2 := loadStorageState_action p (World s d2) in
  run1.1.1 = run2.1.1 ∧ session run1.1.2 = session run2.1.2 ∧ run1.2 = run2.2.
Proof.
  intros Hread1 Hread2 Hparse1 Hparse2 Hc Ho1 Ho2 Hsame run1 run2. subst run1 run2.
  rewrite !loadStorageState_action_split, !run_bind, !load_prelude_run. simpl.
  rewrite Hread1, Hread2, Hparse1, Hparse2, <- Hc, Ho1, Ho2, !rbind_Ok.
  destruct (cookies ← Get v1 P_cookies;
            hasCookies ← nonempty_guard cookies;
            Ok (cookies, hasCookies)) as [[cookies hasCookies]|e]; [|done].
  destruct (if hasCookies
            then let '(r, s1) := br_addCookies cookies s in
                 (r, s1, [Event (CAddCookies cookies) s (outcome r)])
            else (Ok (), s, [])) as [[[[]|e] s1] t_c]; [|done].
  destruct Hsame as [<-|(l1 & l2 & -> & -> & Hl)].
  - destruct ((if ToBoolean o1
               then l ← iterate o1; collect_origins l []
               else Ok []);;
              iterate (if ToBoolean o1 then o1 else VArr [])) as [entries|e]; [|done].
    rewrite !run_bind.
    destruct (forOf_restoreOrigin_same entries entries s1 d1 d2) as (r & s' & t & -> & ->).
    { apply Forall2_same_length_lookup. split; [done|]. intros i x y Hx Hy.
      rewrite Hx in Hy. by injection Hy as <-. }
    by destruct r as [[]|e].
  - cbn [ToBoolean iterate]. rewrite !rbind_Ok, (collect_origins_same l1 l2 [] Hl).
    destruct (collect_origins l2 []) as [visited|e]; [|done]. rewrite !rbind_Ok.
    rewrite !run_bind.
    destruct (forOf_restoreOrigin_same l1 l2 s1 d1 d2 Hl) as (r & s' & t & -> & ->).
    by destruct r as [[]|e].
Qed.


(** A rejected call is the last one of a run that ends where it fails. *)
Lemma terminal_rejection_is_last {A} (r : result A) (t : list event) :
  terminal A r t ->
  ∀ t0 ev t1 err,
    t = t0 ++ ev :: t1 -> ev_error ev = Some err ->
    t1 = [] ∧ r = Err err ∧ Forall succeeded t0.
Proof.
  intros Hterm t0 ev t1 err -> Herr.
  assert (¬ Forall succeeded (t0 ++ ev :: t1)) as Hno.
  { intros Hall. apply Forall_app in Hall as [_ Hall].
    apply Forall_cons in Hall as [Hev _]. unfold succeeded in Hev. congruence. }
  destruct r as [a|e]; simpl in Hterm; [done|].
  destruct Hterm as [[Hall _]|(t0' & ev' & Heq & Hall & Herr')]; [done|].
  destruct t1 as [|ev1 t1 _] using rev_ind.
  - apply app_inj_tail in Heq as [-> ->]. split_and!; [done| |done]. congruence.
  - exfalso. rewrite app_comm_cons, app_assoc in Heq.
    apply app_inj_tail in Heq as [<- _].
    apply Forall_app in Hall as [_ Hall].
    apply Forall_cons in Hall as [Hev _]. unfold succeeded in Hev. congruence.
Qed.

Lemma saveStorageState_action_tidy (p : params) : tidy (saveStorageState_action p).
Proof.
  unfold saveStorageState_action, browserContext_storageState, fsp_mkdir, fsp_writeFile.
  apply tidy_bind; [by apply tidy_on_session|]. intros state.
  apply tidy_bind; [apply tidy_on_disk; simpl; tauto|]. intros _.
  apply tidy_bind; [apply tidy_on_disk; simpl; tauto|]. intros _.
  apply tidy_ret.
Qed.

(** X10. The calls of a save are [storageState], [mkdir] and [writeFile]
    in this order, as far as it gets: a call that rejects is the last one
    and its error is the error of the save, and a save that fails has a
    rejected last call.  The save succeeds exactly when the write was
    issued and accepted.  When [mkdir] was not issued, the disk is
    untouched. *)
Theorem save_stops_at_the_first_rejection (p : params) (w : world) :
  let run := saveStorageState_action p w in
  (∃ data, map ev_call run.2
           `prefix_of` [CStorageState; CMkdir (path_dirname (path p)) true;
                        CWriteFile (path p) data])
  ∧ (∀ t0 ev t1 err,
       run.2 = t0 ++ ev :: t1 -> ev_error ev = Some err ->
       t1 = [] ∧ run.1.1 = Err err ∧ Forall succeeded t0)
  ∧ (∀ err, run.1.1 = Err err ->
       ∃ t0 ev, run.2 = t0 ++ [ev] ∧ ev_error ev = Some err)
  ∧ ((∃ msg, run.1.1 = Ok msg)
     ↔ ∃ data, Event (CWriteFile (path p) data) (session w) None ∈ run.2)
  ∧ ((∀ e dir recursive, e ∈ run.2 -> ev_call e ≠ CMkdir dir recursive) ->
     disk run.1.2 = disk w).
Proof.
  intros run. subst run. split_and!.
  - rewrite saveStorageState_action_run. simpl.
    destruct (br_storageState (session w)) as [state|e]; simpl.
    + exists (JSON_stringify state).
      destruct (fs_mkdir (path_dirname (path p)) true (disk w)) as [[[]|e] d1]; simpl.
      * by destruct (match JSON_stringify state with
                     | Some text => fs_writeFile (path p) text d1
                     | None => (Err TypeError, d1)
                     end) as [r d2].
      * by eexists [_].
    + exists None. by eexists [_; _].
  - apply terminal_rejection_is_last. apply saveStorageState_action_tidy.
  - rewrite saveStorageState_action_run. simpl. intros err.
    destruct (br_storageState (session w)) as [state|e]; simpl.
    + destruct (fs_mkdir (path_dirname (path p)) true (disk w)) as [[[]|e] d1]; simpl.
      * destruct (match JSON_stringify state with
                  | Some text => fs_writeFile (path p) text d1
                  | None => (Err TypeError, d1)
                  end) as [[[]|e] d2]; simpl; [done|].
        intros [= <-]. by eexists [_; _], _.
      * intros [= <-]. by eexists [_], _.
    + intros [= <-]. by eexists [], _.
  - rewrite saveStorageState_action_run. simpl.
    destruct (br_storageState (session w)) as [state|e]; simpl.
    + destruct (fs_mkdir (path_dirname (path p)) true (disk w)) as [[[]|e] d1]; simpl.
      * destruct (match JSON_stringify state with
                  | Some text => fs_writeFile (path p) text d1
                  | None => (Err TypeError, d1)
                  end) as [[[]|e] d2]; simpl.
        -- split; [intros _|by eexists]. eexists.
           do 2 apply list_elem_of_further. apply list_elem_of_here.
        -- split; [by intros [? ?]|]. intros [data Hin].
           repeat (apply elem_of_cons in Hin as [Hin|Hin]; [done|]).
           by apply elem_of_nil in Hin.
      * split; [by intros [? ?]|]. intros [data Hin].
        repeat (apply elem_of_cons in Hin as [Hin|Hin]; [done|]).
        by apply elem_of_nil in Hin.
    + split; [by intros [? ?]|]. intros [data Hin].
      repeat (apply elem_of_cons in Hin as [Hin|Hin]; [done|]).
      by apply elem_of_nil in Hin.
  - rewrite saveStorageState_action_run. simpl.
    destruct (br_storageState (session w)) as [state|e]; simpl; [|done].
    intros Hno. exfalso.
    destruct (fs_mkdir (path_dirname (path p)) true (disk w)) as [[[]|e] d1]; simpl in Hno.
    + destruct (match JSON_stringify state with
                | Some text => fs_writeFile (path p) text d1
                | None => (Err TypeError, d1)
                end) as [r d2]; simpl in Hno.
      eapply Hno; [apply list_elem_of_further, list_elem_of_here|done].
    + eapply Hno; [apply list_elem_of_further, list_elem_of_here|done].
Qed.

(** X11. The two tools behave as their schemas say.  Without a current
    tab the handler of either throws and builds no action.  With one, the
    tool typed [readOnly] returns an action that leaves the session as it
    was, issuing no call that could change it, asks for no snapshot,
    whatever the flag its factory was given, and does not wait for the
    network; the tool typed [destructive] passes the flag on and waits
    for the network. *)
Theorem storage_tools_keep_to_their_type
    (capture : bool) (t : tool) (ctx : context) (p : params) :
  t ∈ storage_tools capture ->
  (hasCurrentTab ctx = false -> handle t ctx p = Err NoCurrentTab)
  ∧ (hasCurrentTab ctx = true ->
     ∃ r, handle t ctx p = Ok r
          ∧ (type (schema t) = ReadOnly ->
             captureSnapshot r = false
             ∧ waitForNetwork r = false
             ∧ ∀ w, session (action r w).1.2 = session w
                    ∧ Forall (λ e : event, ¬ session_mutating (ev_call e))
                        (action r w).2)
          ∧ (type (schema t) = Destructive ->
             captureSnapshot r = capture ∧ waitForNetwork r = true)).
Proof.
  intros Hin. unfold storage_tools in Hin.
  apply elem_of_cons in Hin as [->|Hin];
    [|apply list_elem_of_singleton in Hin as ->]; simpl.
  - unfold saveStorageState, currentTabOrDie. split; [by intros ->|].
    intros ->. rewrite rbind_Ok. eexists. split; [done|]. simpl. split; [|done].
    intros _. split_and!; [done..|]. intros w.
    destruct (saveStorageState_action_tidy p w) as [Hlinked _].
    rewrite saveStorageState_action_run in *. simpl in *.
    destruct (br_storageState (session w)) as [state|e]; simpl in *.
    + destruct (fs_mkdir (path_dirname (path p)) true (disk w)) as [[[]|e] d1];
        simpl in *.
      * destruct (match JSON_stringify state with
                  | Some text => fs_writeFile (path p) text d1
                  | None => (Err TypeError, d1)
                  end) as [r d2]; simpl in *.
        split; [done|]. repeat constructor; simpl; tauto.
      * split; [done|]. repeat constructor; simpl; tauto.
    + split; [done|]. repeat constructor; simpl; tauto.
  - unfold loadStorageState, currentTabOrDie. split; [by intros ->|].
    intros ->. rewrite rbind_Ok. eexists. split; [done|]. simpl. by split.
Qed.

(** X12. The cookies are handed over exactly when the test
    [storageState.cookies && storageState.cookies.length > 0] passes, and
    then once, as the first call after the read, with the value of
    [cookies] as it was parsed, whether or not it is an array; when the
    test does not pass, no [addCookies] is issued. *)
Theorem load_adds_cookies_iff_the_test_passes
    (p : params) (w : world) (text : jsstring) (v cookies : value) :
  fs_readFile (path p) (disk w) = Ok text ->
  JSON_parse text = Some v ->
  Get v P_cookies = Ok cookies ->
  let run := loadStorageState_action p w in
  (nonempty_guard cookies = Ok true ->
   ∃ rest,
     run.2 = Event (CReadFile (path p)) (session w) None
             :: Event (CAddCookies cookies) (session w)
                  (outcome (br_addCookies cookies (session w)).1)
             :: rest
     ∧ Forall (λ e : event, ∀ c, ev_call e ≠ CAddCookies c) rest)
  ∧ (nonempty_guard cookies ≠ Ok true ->
     Forall (λ e : event, ∀ c, ev_call e ≠ CAddCookies c) run.2).
Proof.
  intros Hread Hparse Hc run. subst run.
  rewrite loadStorageState_action_split, run_bind, load_prelude_run. simpl.
  rewrite Hread, Hparse, Hc, rbind_Ok.
  assert (∀ (s1 : S) (t0 : list event),
    ∃ rest,
      (let '(r0, w0, t0) :=
         (origins ← Get v P_origins;
          (if ToBoolean origins
           then l ← iterate origins; collect_origins l []
           else Ok []);;
          iterate (if ToBoolean origins then origins else VArr []),
          World s1 (disk w), t0) in
       match r0 with
       | Ok a =>
           let '(r1, w2, t2) :=
             (forOf a restoreOrigin;;
              mret (js "Storage state loaded from " ++ path p)) w0 in
           (r1, w2, t0 ++ t2)
       | Err e => (Err e, w0, t0)
       end).2 = t0 ++ rest
      ∧ Forall (λ e : event, ∀ c, ev_call e ≠ CAddCookies c) rest) as Hloop.
  { intros s1 t0.
    destruct (origins ← Get v P_origins;
              (if ToBoolean origins
               then l ← iterate origins; collect_origins l []
               else Ok []);;
              iterate (if ToBoolean origins then origins else VArr []))
      as [entries|e].
    2:{ exists []. rewrite app_nil_r. split; [done|constructor]. }
    rewrite run_bind.
    pose proof (forOf_restoreOrigin_emits entries (World s1 (disk w))) as Hemits.
    assert (Forall (λ e : event, ∀ c, ev_call e ≠ CAddCookies c)
              (forOf entries restoreOrigin (World s1 (disk w))).2) as Hno.
    { eapply Forall_impl; [exact Hemits|]. simpl.
      intros ev [Hev|[[url Hev]|(arg & Hev & _)]] c; rewrite Hev; done. }
    destruct (forOf entries restoreOrigin (World s1 (disk w))) as [[[[]|e] w2] t2];
      simpl in *; exists t2; by rewrite ?app_nil_r. }
  destruct (nonempty_guard cookies) as [[]|e]; rewrite ?rbind_Ok, ?rbind_Err.
  - split; [intros _|done].
    destruct (br_addCookies cookies (session w)) as [[[]|e] s1]; simpl.
    + destruct (Hloop s1 [Event (CReadFile (path p)) (session w) None;
                          Event (CAddCookies cookies) (session w) None])
        as (rest & Heq & Hrest).
      exists rest. split; [exact Heq|done].
    + exists []. split; [done|constructor].
  - split; [done|intros _]. simpl.
    destruct (Hloop (session w) [Event (CReadFile (path p)) (session w) None])
      as (rest & Heq & Hrest).
    match goal with
    | |- Forall _ ?t =>
        assert (t = [Event (CReadFile (path p)) (session w) None] ++ rest) as ->
          by exact Heq
    end.
    simpl. by constructor.
  - split; [done|intros _]. simpl. by repeat constructor.
Qed.

End Edges.

(** ** The test for something to apply *)

Section Guard.
Context `{Builtins}.

(** X13. The test [x && x.length > 0] passes for a non-empty array, for
    a non-empty string, and for an object with an own [length] that
    compares above zero; it passes for nothing else: not for [null], a
    missing field, a boolean, a number, an empty array or an empty
    string. *)
Theorem nonempty_guard_passes_for (x : value) :
  nonempty_guard x = Ok true
  ↔ (∃ y l, x = VArr (y :: l))
    ∨ (∃ c s, x = VStr (c :: s))
    ∨ (∃ props len, x = VObj props ∧ own props (js "length") = Some len
                    ∧ GreaterThanZero len = Ok true).
Proof.
  split.
  - destruct x as [| |b|q|s|l|props]; try done.
    + unfold nonempty_guard. simpl. by destruct b.
    + unfold nonempty_guard. simpl. by destruct (negb (Number_isZero q)).
    + destruct s as [|c s]; [done|]. intros _. right; left. by eexists _, _.
    + destruct l as [|y l]; [by rewrite nonempty_guard_array|].
      intros _. left. by eexists _, _.
    + unfold nonempty_guard. simpl.
      destruct (own props (js "length")) as [len|] eqn:Hlen; [|done].
      simpl. intros Hgt. right; right. by eexists _, _.
  - intros [(y & l & ->)|[(c & s & ->)|(props & len & -> & Hlen & Hgt)]].
    + by rewrite nonempty_guard_array.
    + unfold nonempty_guard. simpl. by rewrite Number_gt0_ofNat.
    + unfold nonempty_guard. simpl. by rewrite Hlen.
Qed.

End Guard.

(** ** The function evaluated in the page *)

Section PageFunction.
Context `{Builtins}.

Lemma setItems_loop_app (l1 l2 : list value) (st : storage) :
  setItems_loop (l1 ++ l2) st =
  match setItems_loop l1 st with
  | (Ok _, st1) => setItems_loop l2 st1
  | (Err e, st1) => (Err e, st1)
  end.
Proof.
  revert st. induction l1 as [|x l1 IH]; intros st; simpl; [done|].
  destruct (setItem_args x) as [[k v]|e]; [|done]. apply IH.
Qed.

Lemma setItems_loop_frame (items : list value) (st st' : storage)
    (r : result unit) (k : jsstring) :
  setItems_loop items st = (r, st') ->
  (∀ x k' v', x ∈ items -> setItem_args x = Ok (k', v') -> k' ≠ k) ->
  st' !! k = st !! k.
Proof.
  revert st. induction items as [|x items IH]; intros st; simpl.
  - by intros [= _ <-].
  - intros Hrun Hother.
    destruct (setItem_args x) as [[k' v']|e] eqn:Hargs.
    + rewrite (IH _ Hrun).
      * unfold localStorage_setItem. apply lookup_insert_ne.
        eapply Hother; [apply list_elem_of_here|done].
      * intros y k'' v'' Hy. apply Hother. by apply list_elem_of_further.
    + by injection Hrun as _ <-.
Qed.

Lemma setItem_args_err (item : value) (e : error) :
  setItem_args item = Err e -> e = TypeError.
Proof.
  unfold setItem_args.
  destruct (Get item P_name) as [n|e'] eqn:Hn;
    [|rewrite rbind_Err; intros [= <-]; exact (Get_err _ _ _ Hn)].
  rewrite rbind_Ok.
  destruct (Get item P_value) as [x|e'] eqn:Hx;
    [|rewrite rbind_Err; intros [= <-]; exact (Get_err _ _ _ Hx)].
  rewrite rbind_Ok.
  destruct (ToString n) as [k|e'] eqn:Hk;
    [|rewrite rbind_Err; intros [= <-]; exact (ToString_err _ _ Hk)].
  rewrite rbind_Ok.
  destruct (ToString x) as [v|e'] eqn:Hv;
    [|rewrite rbind_Err; intros [= <-]; exact (ToString_err _ _ Hv)].
  by rewrite rbind_Ok.
Qed.

(** X14. Within one evaluation, the last item that names a key decides
    its value: when the function completes, the key of an item holds that
    item's value unless a later item has the same key. *)
Theorem setItems_last_item_wins
    (before after : list value) (item : value) (k v : jsstring) (st st' : storage) :
  setItems (VArr (before ++ item :: after)) st = (Ok (), st') ->
  setItem_args item = Ok (k, v) ->
  (∀ x k' v', x ∈ after -> setItem_args x = Ok (k', v') -> k' ≠ k) ->
  st' !! k = Some v.
Proof.
  unfold setItems. cbn [iterate]. rewrite setItems_loop_app.
  destruct (setItems_loop before st) as [[[]|e] st1]; [|done].
  cbn [setItems_loop]. intros Hrun Hargs Hafter. rewrite Hargs in Hrun.
  rewrite (setItems_loop_frame _ _ _ _ k Hrun Hafter).
  apply lookup_insert_eq.
Qed.

(** X15. The function only sets the keys its items name: a key that no
    item names keeps the value it had, or stays absent, also when the
    function throws part of the way.  Nothing is cleared or removed. *)
Theorem setItems_keeps_other_keys
    (arg : value) (st st' : storage) (r : result unit) (k : jsstring) :
  setItems arg st = (r, st') ->
  (∀ items x k' v',
     iterate arg = Ok items -> x ∈ items -> setItem_args x = Ok (k', v') -> k' ≠ k) ->
  st' !! k = st !! k.
Proof.
  unfold setItems. intros Hrun Hother.
  destruct (iterate arg) as [items|e]; [|by injection Hrun as _ <-].
  eapply setItems_loop_frame; [done|]. intros x k' v'. by apply Hother.
Qed.

(** X16. An item whose [name] or [value] cannot be read or converted,
    such as [null], makes the function throw a [TypeError]; the items
    before it stay written and the items after it are not looked at. *)
Theorem setItems_keeps_writes_before_a_failure
    (before after : list value) (bad : value) (st st1 : storage) (e : error) :
  setItems (VArr before) st = (Ok (), st1) ->
  setItem_args bad = Err e ->
  e = TypeError
  ∧ setItems (VArr (before ++ bad :: after)) st = (Err TypeError, st1).
Proof.
  unfold setItems. cbn [iterate]. intros Hbefore Hbad.
  pose proof (setItem_args_err _ _ Hbad) as ->. split; [done|].
  rewrite setItems_loop_app, Hbefore. cbn [setItems_loop]. by rewrite Hbad.
Qed.

Lemma setItems_loop_result (items : list value) (st st2 : storage) :
  (setItems_loop items st).1 = (setItems_loop items st2).1.
Proof.
  revert st st2. induction items as [|x items IH]; intros st st2; simpl; [done|].
  destruct (setItem_args x) as [[k v]|e]; [|done]. apply IH.
Qed.

(** X17. Evaluating the function again with the same argument, on the
    storage the first evaluation left, changes nothing. *)
Theorem setItems_is_idempotent (arg : value) (st st' : storage) :
  setItems arg st = (Ok (), st') -> setItems arg st' = (Ok (), st').
Proof.
  unfold setItems. destruct (iterate arg) as [items|e]; [|done]. intros Hrun.
  pose proof (setItems_loop_result items st' st) as Hres. rewrite Hrun in Hres.
  destruct (setItems_loop items st') as [r st''] eqn:Hagain. simpl in Hres. subst r.
  f_equal. apply map_eq. intros k.
  destruct (last_write items k) as [v|] eqn:Hlast.
  - rewrite (setItems_loop_last _ _ _ _ _ Hagain Hlast).
    by rewrite (setItems_loop_last _ _ _ _ _ Hrun Hlast).
  - exact (setItems_loop_keeps _ _ _ _ _ Hagain Hlast).
Qed.

Lemma setItems_loop_grows (items : list value) (st st' : storage)
    (r : result unit) (k : jsstring) :
  setItems_loop items st = (r, st') -> is_Some (st !! k) -> is_Some (st' !! k).
Proof.
  revert st. induction items as [|x items IH]; intros st; simpl.
  - by intros [= _ <-].
  - destruct (setItem_args x) as [[k' v']|e]; [|by intros [= _ <-]].
    intros Hrun Hk. apply (IH _ Hrun). unfold localStorage_setItem.
    destruct (decide (k' = k)) as [->|Hne].
    + rewrite lookup_insert_eq. by eexists.
    + by rewrite lookup_insert_ne.
Qed.

(** X18. No item is skipped: when the function completes, every item of
    its argument has been given to [setItem], and the key it set is in
    the storage.  An item without a [name] sets the key [undefined], and
    an item without a [value] stores the text [undefined]. *)
Theorem setItems_writes_a_key_for_every_item
    (items : list value) (st st' : storage) (x : value) :
  setItems (VArr items) st = (Ok (), st') ->
  x ∈ items ->
  ∃ k v,
    setItem_args x = Ok (k, v)
    ∧ is_Some (st' !! k)
    ∧ (Get x P_name = Ok VUndefined -> k = js "undefined")
    ∧ (Get x P_value = Ok VUndefined -> v = js "undefined").
Proof.
  unfold setItems. cbn [iterate]. intros Hrun Hin.
  apply list_elem_of_split in Hin as (before & after & ->).
  rewrite setItems_loop_app in Hrun.
  destruct (setItems_loop before st) as [[[]|e] st1]; [|done].
  cbn [setItems_loop] in Hrun.
  destruct (setItem_args x) as [[k v]|e] eqn:Hargs; [|done].
  exists k, v. split_and!; [done| | |].
  - apply (setItems_loop_grows _ _ _ _ _ Hrun). unfold localStorage_setItem.
    rewrite lookup_insert_eq. by eexists.
  - intros Hn. unfold setItem_args in Hargs. rewrite Hn, rbind_Ok in Hargs.
    destruct (Get x P_value) as [val|e]; [|done]. rewrite rbind_Ok in Hargs.
    cbn [ToString] in Hargs. rewrite rbind_Ok in Hargs.
    destruct (ToString val) as [s|e]; [|done]. by injection Hargs as <- _.
  - intros Hv. unfold setItem_args in Hargs. rewrite Hv in Hargs.
    destruct (Get x P_name) as [n|e]; [|done]. rewrite !rbind_Ok in Hargs.
    destruct (ToString n) as [s|e]; [|done]. rewrite rbind_Ok in Hargs.
    cbn [ToString] in Hargs. rewrite rbind_Ok in Hargs. by injection Hargs as _ <-.
Qed.

End PageFunction.

(** ** Worked runs on the simulated tab and disk *)

(** Equations between closed terms are checked by evaluating both sides. *)
Ltac by_evaluation :=
  lazymatch goal with
  | |- _ = ?rhs => vm_cast_no_check (@eq_refl _ rhs)
  end.

(** The example of the specification: after the load, the jar holds the
    cookie and [theme] reads [dark] on [https://example.com]. *)
Example load_example :
  Demo.load Demo.plain Demo.state_json (Demo.world_with Demo.example_text) =
    (Ok (js "Storage state loaded from /state.json"),
     World (Demo.at_ "https://example.com/" [Demo.session_cookie]
              [("https://example.com", [("theme", "dark")])])
       (Demo.disk_with Demo.example_text),
     [Demo.read_ok;
      Event (CAddCookies (VArr [Demo.session_cookie])) Demo.blank None;
      Event CUrl (Demo.at_ "about:blank" [Demo.session_cookie] []) None;
      Event (CGoto (VStr (js "https://example.com")))
        (Demo.at_ "about:blank" [Demo.session_cookie] []) None;
      Event (CEvaluate Demo.script (VArr [Demo.item "theme" "dark"]))
        (Demo.at_ "https://example.com/" [Demo.session_cookie] []) None]).
Proof. by_evaluation. Qed.

(** The empty snapshot of the specification: no cookie call and no
    navigation. *)
Example load_empty_snapshot :
  Demo.load Demo.plain Demo.state_json (Demo.world_with Demo.empty_text) =
    (Ok (js "Storage state loaded from /state.json"),
     Demo.world_with Demo.empty_text, [Demo.read_ok]).
Proof. by_evaluation. Qed.

Lemma load_rejects_malformed_json_witness :
  Sim.readFile (js "/state.json") (Demo.disk_with (js "not json"))
    = Ok (js "not json")
  ∧ Sim.parse (js "not json") = None
  ∧ Demo.load Demo.plain Demo.state_json (Demo.world_with (js "not json"))
    = (Err SyntaxError, Demo.world_with (js "not json"), [Demo.read_ok]).
Proof.
  assert (Sim.readFile (js "/state.json") (Demo.disk_with (js "not json"))
          = Ok (js "not json")) as Hread by by_evaluation.
  assert (Sim.parse (js "not json") = None) as Hparse by by_evaluation.
  split_and!; [exact Hread|exact Hparse|].
  exact (@load_rejects_malformed_json Sim.builtins Sim.tab Sim.files
           (@Sim.browser Sim.builtins Demo.plain) Sim.filesystem Demo.state_json
           (Demo.world_with (js "not json")) (js "not json") Hread Hparse).
Defined.

Lemma load_applies_cookies_in_one_batch_first_witness :
  Sim.readFile (js "/state.json") (Demo.disk_with Demo.example_text)
    = Ok Demo.example_text
  ∧ Sim.parse Demo.example_text = Some Demo.example_value
  ∧ Get Demo.example_value P_cookies = Ok (VArr [Demo.session_cookie])
  ∧ ∃ rest,
      (Demo.load Demo.plain Demo.state_json (Demo.world_with Demo.example_text)).2
      = Demo.read_ok
        :: Event (CAddCookies (VArr [Demo.session_cookie])) Demo.blank None
        :: rest
      ∧ Forall (λ e, ev_call e = CUrl ∨ (∃ url, ev_call e = CGoto url)
                     ∨ is_evaluate e) rest
      ∧ Forall (λ e, ∀ cookies, ev_call e ≠ CAddCookies cookies) rest.
Proof.
  assert (Sim.readFile (js "/state.json") (Demo.disk_with Demo.example_text)
          = Ok Demo.example_text) as Hread by by_evaluation.
  assert (Sim.parse Demo.example_text = Some Demo.example_value) as Hparse
    by by_evaluation.
  assert (Get Demo.example_value P_cookies = Ok (VArr [Demo.session_cookie]))
    as Hcookies by by_evaluation.
  split_and!; [exact Hread|exact Hparse|exact Hcookies|].
  exact (@load_applies_cookies_in_one_batch_first Sim.builtins Sim.tab Sim.files
           (@Sim.browser Sim.builtins Demo.plain) Sim.filesystem Demo.state_json
           (Demo.world_with Demo.example_text) Demo.example_text
           Demo.example_value Demo.session_cookie [] Hread Hparse Hcookies).
Defined.

(** The document [{}] has neither [cookies] nor [origins]: the load
    succeeds.  With a cookie and an entry that has no [origin], the cookie
    is in the jar when the navigation to [undefined] is refused. *)
Lemma missing_fields_are_not_parse_errors :
  (Sim.parse (js "{}") = Some (VObj [])
   ∧ Demo.load Demo.plain Demo.state_json (Demo.world_with (js "{}"))
     = (Ok (js "Storage state loaded from /state.json"),
        Demo.world_with (js "{}"), [Demo.read_ok]))
  ∧ (Sim.parse Demo.no_origin_text
     = Some (VObj [(js "cookies", VArr [Demo.session_cookie]);
                   (js "origins", VArr [VObj []])])
     ∧ Demo.load Demo.plain Demo.state_json (Demo.world_with Demo.no_origin_text)
       = (Err (Rejected (js "page.goto: navigation failed")),
          World (Demo.at_ "about:blank" [Demo.session_cookie] [])
            (Demo.disk_with Demo.no_origin_text),
          [Demo.read_ok;
           Event (CAddCookies (VArr [Demo.session_cookie])) Demo.blank None;
           Event CUrl (Demo.at_ "about:blank" [Demo.session_cookie] []) None;
           Event (CGoto VUndefined)
             (Demo.at_ "about:blank" [Demo.session_cookie] [])
             (Some (Rejected (js "page.goto: navigation failed")))])).
Proof. split; split; by_evaluation. Qed.

Lemma load_does_not_validate_shape_witness :
  Sim.readFile (js "/state.json") (Demo.disk_with (js "{}")) = Ok (js "{}")
  ∧ Sim.parse (js "{}") = Some (VObj [])
  ∧ Get (VObj []) P_cookies = Ok VUndefined
  ∧ Get (VObj []) P_origins = Ok VUndefined
  ∧ Demo.load Demo.plain Demo.state_json (Demo.world_with (js "{}"))
    = (Ok (js "Storage state loaded from " ++ js "/state.json"),
       Demo.world_with (js "{}"), [Demo.read_ok]).
Proof.
  assert (Sim.readFile (js "/state.json") (Demo.disk_with (js "{}")) = Ok (js "{}"))
    as Hread by by_evaluation.
  assert (Sim.parse (js "{}") = Some (VObj [])) as Hparse
    by by_evaluation.
  split_and!; [exact Hread|exact Hparse|reflexivity|reflexivity|].
  exact (proj1 (@load_does_not_validate_shape Sim.builtins Sim.tab Sim.files
                  (@Sim.browser Sim.builtins Demo.plain) Sim.filesystem Demo.state_json
                  (Demo.world_with (js "{}")))
           (js "{}") (VObj []) VUndefined VUndefined
           Hread Hparse eq_refl eq_refl eq_refl eq_refl).
Defined.



Lemma reaches_example_entry :
  Demo.reaches Demo.plain Demo.state_json (Demo.world_with Demo.example_text)
    Demo.example_entry
    (World Demo.with_cookie (Demo.disk_with Demo.example_text))
    [Demo.read_ok; Demo.cookie_added].
Proof.
  exists [], [], (World Demo.with_cookie (Demo.disk_with Demo.example_text)),
    [Demo.read_ok; Demo.cookie_added], [].
  split_and!; by_evaluation.
Qed.

(** The example, where the navigation is issued and lands on the origin;
    and a tab already on the origin, where no navigation is issued and
    where one would have led elsewhere. *)
Lemma injection_url_starts_with_origin_witness :
  (Demo.reaches Demo.plain Demo.state_json (Demo.world_with Demo.example_text)
     Demo.example_entry
     (World Demo.with_cookie (Demo.disk_with Demo.example_text))
     [Demo.read_ok; Demo.cookie_added]
   ∧ Get Demo.example_entry P_origin = Ok (VStr (js "https://example.com"))
   ∧ ToString (H:=Sim.builtins) (VStr (js "https://example.com"))
     = Ok (js "https://example.com")
   ∧ (startsWith (Sim.location Demo.with_cookie) (js "https://example.com") = false ->
      ∀ s', Sim.goto Demo.plain (VStr (js "https://example.com")) Demo.with_cookie
            = (Ok (), s') ->
            startsWith (Sim.location s') (js "https://example.com") = true)
   ∧ (∃ rest,
        (Demo.load Demo.plain Demo.state_json (Demo.world_with Demo.example_text)).2
        = [Demo.read_ok; Demo.cookie_added]
          ++ (Demo.body Demo.plain Demo.example_entry
                (World Demo.with_cookie (Demo.disk_with Demo.example_text))).2
          ++ rest)
   ∧ Forall (λ e, is_evaluate e ->
                startsWith (Sim.location (ev_at e)) (js "https://example.com") = true)
       (Demo.body Demo.plain Demo.example_entry
          (World Demo.with_cookie (Demo.disk_with Demo.example_text))).2)
  ∧ (Demo.reaches Demo.moved Demo.state_json
       (World Demo.on_a (Demo.disk_with Demo.single_text)) Demo.single_entry
       (World Demo.on_a (Demo.disk_with Demo.single_text))
       [Event (CReadFile (js "/state.json")) Demo.on_a None]
     ∧ Get Demo.single_entry P_origin = Ok (VStr (js "https://a.test"))
     ∧ startsWith (Sim.location Demo.on_a) (js "https://a.test") = true
     ∧ Sim.goto Demo.moved (VStr (js "https://a.test")) Demo.on_a
       = (Ok (), Demo.at_ "https://b.test/" [] [])
     ∧ Forall (λ e, is_evaluate e ->
                  startsWith (Sim.location (ev_at e)) (js "https://a.test") = true)
         (Demo.body Demo.moved Demo.single_entry
            (World Demo.on_a (Demo.disk_with Demo.single_text))).2).
Proof.
  split.
  - assert (startsWith (Sim.location Demo.with_cookie) (js "https://example.com")
            = false ->
            ∀ s', Sim.goto Demo.plain (VStr (js "https://example.com")) Demo.with_cookie
                  = (Ok (), s') ->
                  startsWith (Sim.location s') (js "https://example.com") = true)
      as Hland.
    { intros _ s' Hgoto. vm_compute in Hgoto. injection Hgoto as <-.
      vm_compute. reflexivity. }
    split_and!; [exact reaches_example_entry|reflexivity|reflexivity|exact Hland|..];
      apply (@injection_url_starts_with_origin Sim.builtins Sim.tab Sim.files
               (@Sim.browser Sim.builtins Demo.plain) Sim.filesystem Demo.state_json
               (Demo.world_with Demo.example_text)
               (World Demo.with_cookie (Demo.disk_with Demo.example_text))
               Demo.example_entry (VStr (js "https://example.com"))
               (js "https://example.com") [Demo.read_ok; Demo.cookie_added]
               reaches_example_entry eq_refl eq_refl Hland).
  - assert (Demo.reaches Demo.moved Demo.state_json
              (World Demo.on_a (Demo.disk_with Demo.single_text)) Demo.single_entry
              (World Demo.on_a (Demo.disk_with Demo.single_text))
              [Event (CReadFile (js "/state.json")) Demo.on_a None]) as Hreach.
    { exists [], [], (World Demo.on_a (Demo.disk_with Demo.single_text)),
        [Event (CReadFile (js "/state.json")) Demo.on_a None], [].
      split_and!; by_evaluation. }
    assert (startsWith (Sim.location Demo.on_a) (js "https://a.test") = true)
      as Hthere by by_evaluation.
    assert (startsWith (Sim.location Demo.on_a) (js "https://a.test") = false ->
            ∀ s', Sim.goto Demo.moved (VStr (js "https://a.test")) Demo.on_a
                  = (Ok (), s') ->
                  startsWith (Sim.location s') (js "https://a.test") = true)
      as Hland.
    { intros Hnot. rewrite Hthere in Hnot. discriminate Hnot. }
    split_and!; [exact Hreach|reflexivity|exact Hthere|by_evaluation|].
    exact (proj2 (@injection_url_starts_with_origin Sim.builtins Sim.tab Sim.files
                    (@Sim.browser Sim.builtins Demo.moved) Sim.filesystem
                    Demo.state_json
                    (World Demo.on_a (Demo.disk_with Demo.single_text))
                    (World Demo.on_a (Demo.disk_with Demo.single_text))
                    Demo.single_entry (VStr (js "https://a.test"))
                    (js "https://a.test")
                    [Event (CReadFile (js "/state.json")) Demo.on_a None]
                    Hreach eq_refl eq_refl Hland)).
Defined.

(** A redirect: the entry is for [http://a.test], the navigation ends on
    [https://a.test/], and the script is evaluated there. *)
Lemma injection_url_after_redirect_lacks_origin :
  Demo.load Demo.redirecting Demo.state_json (Demo.world_with Demo.redirected_text)
  = (Ok (js "Storage state loaded from /state.json"),
     World (Demo.at_ "https://a.test/" [] [("https://a.test", [("k", "v")])])
       (Demo.disk_with Demo.redirected_text),
     [Demo.read_ok;
      Event CUrl Demo.blank None;
      Event (CGoto (VStr (js "http://a.test"))) Demo.blank None;
      Event (CEvaluate Demo.script (VArr [Demo.item "k" "v"]))
        (Demo.at_ "https://a.test/" [] []) None])
  ∧ Demo.reaches Demo.redirecting Demo.state_json
      (Demo.world_with Demo.redirected_text) Demo.redirected_entry
      (Demo.world_with Demo.redirected_text) [Demo.read_ok]
  ∧ Get Demo.redirected_entry P_origin = Ok (VStr (js "http://a.test"))
  ∧ ¬ Forall (λ e, is_evaluate e ->
                 startsWith (Sim.location (ev_at e)) (js "http://a.test") = true)
        (Demo.body Demo.redirecting Demo.redirected_entry
           (Demo.world_with Demo.redirected_text)).2.
Proof.
  split_and!.
  - by_evaluation.
  - exists [], [], (Demo.world_with Demo.redirected_text), [Demo.read_ok], [].
    split_and!; by_evaluation.
  - reflexivity.
  - assert ((Demo.body Demo.redirecting Demo.redirected_entry
               (Demo.world_with Demo.redirected_text)).2
            = [Event CUrl Demo.blank None;
               Event (CGoto (VStr (js "http://a.test"))) Demo.blank None;
               Event (CEvaluate Demo.script (VArr [Demo.item "k" "v"]))
                 (Demo.at_ "https://a.test/" [] []) None]) as ->
      by by_evaluation.
    intros Hall. apply Forall_cons in Hall as [_ Hall].
    apply Forall_cons in Hall as [_ Hall]. apply Forall_cons in Hall as [Hev _].
    assert (startsWith (js "https://a.test/") (js "http://a.test") = true) as Hpre.
    { apply Hev. by eexists _, _. }
    vm_compute in Hpre. discriminate Hpre.
Qed.

Lemma load_evaluates_a_fixed_function_witness :
  Event (CEvaluate Demo.script (VArr [Demo.item "theme" "dark"]))
    (Demo.at_ "https://example.com/" [Demo.session_cookie] []) None
    ∈ (Demo.load Demo.plain Demo.state_json (Demo.world_with Demo.example_text)).2
  ∧ Demo.script = ScriptFunction SetItems
  ∧ ∃ text v entries x,
      Sim.readFile (js "/state.json") (Demo.disk_with Demo.example_text) = Ok text
      ∧ Sim.parse text = Some v
      ∧ entries_of v = Ok entries
      ∧ x ∈ entries
      ∧ Get x P_localStorage = Ok (VArr [Demo.item "theme" "dark"]).
Proof.
  assert (Event (CEvaluate Demo.script (VArr [Demo.item "theme" "dark"]))
            (Demo.at_ "https://example.com/" [Demo.session_cookie] []) None
          ∈ (Demo.load Demo.plain Demo.state_json
               (Demo.world_with Demo.example_text)).2) as Hin.
  { rewrite load_example. simpl. do 4 apply list_elem_of_further.
    apply list_elem_of_here. }
  split; [exact Hin|].
  exact (@load_evaluates_a_fixed_function Sim.builtins Sim.tab Sim.files
           (@Sim.browser Sim.builtins Demo.plain) Sim.filesystem Demo.state_json
           (Demo.world_with Demo.example_text) _ Demo.script
           (VArr [Demo.item "theme" "dark"]) Hin eq_refl).
Defined.



Lemma save_creates_parents_then_overwrites_witness :
  Sim.storageState Demo.logged_in = Ok Demo.example_value
  ∧ Sim.stringify Sim.number_toString [] Demo.example_value = Some Demo.saved_text
  ∧ path_dirname (js "/a/b/c/state.json") = js "/a/b/c"
  ∧ Sim.mkdir (js "/a/b/c") true ∅ = (Ok (), Demo.dirs_made)
  ∧ Sim.writeFile (js "/a/b/c/state.json") Demo.saved_text Demo.dirs_made
    = (Ok (), Demo.file_written)
  ∧ Demo.save Demo.plain Demo.deep (World Demo.logged_in ∅)
    = (Ok (js "Storage state saved to " ++ js "/a/b/c/state.json"),
       World Demo.logged_in Demo.file_written,
       [Event CStorageState Demo.logged_in None;
        Event (CMkdir (path_dirname (js "/a/b/c/state.json")) true)
          Demo.logged_in None;
        Event (CWriteFile (js "/a/b/c/state.json") (Some Demo.saved_text))
          Demo.logged_in None]).
Proof.
  assert (Sim.storageState Demo.logged_in = Ok Demo.example_value) as Hstate
    by by_evaluation.
  assert (Sim.stringify Sim.number_toString [] Demo.example_value
          = Some Demo.saved_text) as Htext by by_evaluation.
  assert (path_dirname (js "/a/b/c/state.json") = js "/a/b/c") as Hdir
    by by_evaluation.
  assert (Sim.mkdir (path_dirname (js "/a/b/c/state.json")) true ∅
          = (Ok (), Demo.dirs_made)) as Hmkdir by by_evaluation.
  assert (Sim.writeFile (js "/a/b/c/state.json") Demo.saved_text Demo.dirs_made
          = (Ok (), Demo.file_written)) as Hwrite by by_evaluation.
  split_and!; [exact Hstate|exact Htext|exact Hdir
              |by rewrite <- Hdir|exact Hwrite|].
  exact (@save_creates_parents_then_overwrites Sim.builtins Sim.tab Sim.files
           (@Sim.browser Sim.builtins Demo.plain) Sim.filesystem Demo.deep
           (World Demo.logged_in ∅) Demo.example_value Demo.saved_text
           Demo.dirs_made Demo.file_written Hstate Htext Hmkdir Hwrite).
Defined.

(** Saving again over the file replaces its text, with no other call. *)
Example save_overwrites :
  Demo.save Demo.plain Demo.deep
    (World Demo.logged_in
       (<[ [js "a"; js "b"; js "c"; js "state.json"] := Sim.File (js "old") ]>
          Demo.dirs_made))
  = (Ok (js "Storage state saved to /a/b/c/state.json"),
     World Demo.logged_in Demo.file_written,
     [Event CStorageState Demo.logged_in None;
      Event (CMkdir (js "/a/b/c") true) Demo.logged_in None;
      Event (CWriteFile (js "/a/b/c/state.json") (Some Demo.saved_text))
        Demo.logged_in None]).
Proof. by_evaluation. Qed.



(** The proviso of [duplicate_origin_last_wins] is needed: a later entry
    whose origin string is a prefix of the tab's URL is injected without
    a navigation, on the page of the duplicates. *)
Example later_entry_on_the_same_page_overwrites :
  session (Demo.load Demo.plain Demo.state_json
             (Demo.world_with Demo.prefix_text)).1.2
  = Demo.at_ "https://a.test/" [] [("https://a.test", [("k", "3")])]
  ∧ map ev_call (Demo.load Demo.plain Demo.state_json
                   (Demo.world_with Demo.prefix_text)).2
    = [CReadFile (js "/state.json");
       CUrl; CGoto (VStr (js "https://a.test"));
       CEvaluate Demo.script (VArr [Demo.item "k" "1"]);
       CUrl; CEvaluate Demo.script (VArr [Demo.item "k" "2"]);
       CUrl; CEvaluate Demo.script (VArr [Demo.item "k" "3"])].
Proof. split; by_evaluation. Qed.

(** An entry with an empty [localStorage] is navigated to all the same. *)
Example load_navigates_without_items :
  Demo.load Demo.plain Demo.state_json
    (Demo.world_with Demo.nothing_to_inject_text)
  = (Ok (js "Storage state loaded from /state.json"),
     World (Demo.at_ "https://a.test/" [] [])
       (Demo.disk_with Demo.nothing_to_inject_text),
     [Demo.read_ok;
      Event CUrl Demo.blank None;
      Event (CGoto (VStr (js "https://a.test"))) Demo.blank None]).
Proof. by_evaluation. Qed.

(** The path of the save above is one to which [save_on_simulated_disk]
    applies. *)
Example deep_path_is_plain :
  Sim.resolve (path Demo.deep) = [js "a"; js "b"; js "c"; js "state.json"]
  ∧ Sim.parent (Sim.resolve (path Demo.deep))
    = Sim.resolve (path_dirname (path Demo.deep)).
Proof. split; by_evaluation. Qed.

(** ** Runs for the edges *)

(** No file at the path: the load reports [ENOENT]. *)
Lemma load_reports_unreadable_file_witness :
  Sim.readFile (js "/state.json") ∅ = Err Demo.missing
  ∧ Demo.load Demo.plain Demo.state_json Demo.no_file
    = (Err Demo.missing, Demo.no_file,
       [Event (CReadFile (js "/state.json")) Demo.blank (Some Demo.missing)]).
Proof.
  assert (Sim.readFile (js "/state.json") ∅ = Err Demo.missing) as Hread
    by by_evaluation.
  split; [exact Hread|].
  exact (@load_reports_unreadable_file Sim.builtins Sim.tab Sim.files
           (@Sim.browser Sim.builtins Demo.plain) Sim.filesystem Demo.state_json
           Demo.no_file Demo.missing Hread).
Defined.

(** The documents [null] and [[1]]. *)
Lemma load_of_a_document_that_is_not_an_object_witness :
  (Sim.readFile (js "/state.json") (Demo.disk_with (js "null")) = Ok (js "null")
   ∧ Sim.parse (js "null") = Some VNull
   ∧ Demo.load Demo.plain Demo.state_json (Demo.world_with (js "null"))
     = (Err TypeError, Demo.world_with (js "null"), [Demo.read_ok]))
  ∧ (Sim.readFile (js "/state.json") (Demo.disk_with (js "[1]")) = Ok (js "[1]")
     ∧ Sim.parse (js "[1]") = Some (VArr [VNum 1])
     ∧ Demo.load Demo.plain Demo.state_json (Demo.world_with (js "[1]"))
       = (Ok (js "Storage state loaded from " ++ js "/state.json"),
          Demo.world_with (js "[1]"), [Demo.read_ok])).
Proof.
  assert (Sim.readFile (js "/state.json") (Demo.disk_with (js "null"))
          = Ok (js "null")) as Hread by by_evaluation.
  assert (Sim.parse (js "null") = Some VNull) as Hparse by by_evaluation.
  assert (Sim.readFile (js "/state.json") (Demo.disk_with (js "[1]"))
          = Ok (js "[1]")) as Hread' by by_evaluation.
  assert (Sim.parse (js "[1]") = Some (VArr [VNum 1])) as Hparse' by by_evaluation.
  split; (split_and!; [done|done|]).
  - exact (@load_of_a_document_that_is_not_an_object Sim.builtins Sim.tab Sim.files
             (@Sim.browser Sim.builtins Demo.plain) Sim.filesystem Demo.state_json
             (Demo.world_with (js "null")) (js "null") VNull Hread Hparse
             (λ props, @eq_ind value VNull
                         (λ v, match v with VNull => True | _ => False end)
                         I (VObj props))).
  - exact (@load_of_a_document_that_is_not_an_object Sim.builtins Sim.tab Sim.files
             (@Sim.browser Sim.builtins Demo.plain) Sim.filesystem Demo.state_json
             (Demo.world_with (js "[1]")) (js "[1]") (VArr [VNum 1]) Hread' Hparse'
             (λ props, @eq_ind value (VArr [VNum 1])
                         (λ v, match v with VArr _ => True | _ => False end)
                         I (VObj props))).
Defined.

(** The empty snapshot. *)
Lemma load_skips_empty_arrays_witness :
  Sim.readFile (js "/state.json") (Demo.disk_with Demo.empty_text)
    = Ok Demo.empty_text
  ∧ Sim.parse Demo.empty_text = Some Demo.empty_value
  ∧ Get Demo.empty_value P_cookies = Ok (VArr [])
  ∧ Get Demo.empty_value P_origins = Ok (VArr [])
  ∧ Demo.load Demo.plain Demo.state_json (Demo.world_with Demo.empty_text)
    = (Ok (js "Storage state loaded from " ++ js "/state.json"),
       Demo.world_with Demo.empty_text, [Demo.read_ok]).
Proof.
  assert (Sim.readFile (js "/state.json") (Demo.disk_with Demo.empty_text)
          = Ok Demo.empty_text) as Hread by by_evaluation.
  assert (Sim.parse Demo.empty_text = Some Demo.empty_value) as Hparse
    by by_evaluation.
  split_and!; [exact Hread|exact Hparse|reflexivity|reflexivity|].
  exact (proj2 (proj2 (@load_skips_empty_arrays Sim.builtins Sim.tab Sim.files
                         (@Sim.browser Sim.builtins Demo.plain) Sim.filesystem
                         Demo.state_json (Demo.world_with Demo.empty_text)
                         Demo.empty_text Demo.empty_value Hread Hparse))
           eq_refl eq_refl).
Defined.

(** A [null] after a good entry: the good entry is not restored. *)
Lemma load_with_a_null_entry_witness :
  Sim.readFile (js "/state.json") (Demo.disk_with Demo.null_entry_text)
    = Ok Demo.null_entry_text
  ∧ Sim.parse Demo.null_entry_text = Some Demo.null_entry_value
  ∧ Get Demo.null_entry_value P_origins
    = Ok (VArr [Demo.origin_entry "https://a.test" [Demo.item "k" "v"]; VNull])
  ∧ VNull ∈ [Demo.origin_entry "https://a.test" [Demo.item "k" "v"]; VNull]
  ∧ let run := Demo.load Demo.plain Demo.state_json
                 (Demo.world_with Demo.null_entry_text) in
    (∃ e, run.1.1 = Err e)
    ∧ Forall (λ ev, ev_call ev = CReadFile (js "/state.json")
                    ∨ ∃ cookies, ev_call ev = CAddCookies cookies) run.2
    ∧ (Forall succeeded run.2 -> run.1.1 = Err TypeError).
Proof.
  assert (Sim.readFile (js "/state.json") (Demo.disk_with Demo.null_entry_text)
          = Ok Demo.null_entry_text) as Hread by by_evaluation.
  assert (Sim.parse Demo.null_entry_text = Some Demo.null_entry_value) as Hparse
    by by_evaluation.
  assert (VNull ∈ [Demo.origin_entry "https://a.test" [Demo.item "k" "v"]; VNull])
    as Hnull by apply list_elem_of_further, list_elem_of_here.
  split_and!; [exact Hread|exact Hparse|reflexivity|exact Hnull|].
  exact (@load_with_a_null_entry Sim.builtins Sim.tab Sim.files
           (@Sim.browser Sim.builtins Demo.plain) Sim.filesystem Demo.state_json
           (Demo.world_with Demo.null_entry_text) Demo.null_entry_text
           Demo.null_entry_value _ Hread Hparse eq_refl Hnull).
Defined.

(** [origins] is the object [{}]. *)
Lemma load_with_origins_that_cannot_be_iterated_witness :
  Sim.readFile (js "/state.json") (Demo.disk_with Demo.origins_object_text)
    = Ok Demo.origins_object_text
  ∧ Sim.parse Demo.origins_object_text = Some Demo.origins_object_value
  ∧ Get Demo.origins_object_value P_origins = Ok (VObj [])
  ∧ ToBoolean (VObj []) = true
  ∧ iterate (VObj []) = Err TypeError
  ∧ let run := Demo.load Demo.plain Demo.state_json
                 (Demo.world_with Demo.origins_object_text) in
    (∃ e, run.1.1 = Err e)
    ∧ Forall (λ ev, ev_call ev = CReadFile (js "/state.json")
                    ∨ ∃ cookies, ev_call ev = CAddCookies cookies) run.2
    ∧ (Forall succeeded run.2 -> run.1.1 = Err TypeError).
Proof.
  assert (Sim.readFile (js "/state.json") (Demo.disk_with Demo.origins_object_text)
          = Ok Demo.origins_object_text) as Hread by by_evaluation.
  assert (Sim.parse Demo.origins_object_text = Some Demo.origins_object_value)
    as Hparse by by_evaluation.
  split_and!; [exact Hread|exact Hparse|reflexivity|reflexivity|reflexivity|].
  exact (@load_with_origins_that_cannot_be_iterated Sim.builtins Sim.tab Sim.files
           (@Sim.browser Sim.builtins Demo.plain) Sim.filesystem Demo.state_json
           (Demo.world_with Demo.origins_object_text) Demo.origins_object_text
           Demo.origins_object_value (VObj []) TypeError
           Hread Hparse eq_refl eq_refl eq_refl).
Defined.

(** The two entries for [https://a.test], in their order. *)
Lemma load_injects_entries_in_order_witness :
  Sim.readFile (js "/state.json") (Demo.disk_with Demo.duplicate_text)
    = Ok Demo.duplicate_text
  ∧ Sim.parse Demo.duplicate_text = Some Demo.duplicate_value
  ∧ entries_of Demo.duplicate_value
    = Ok [Demo.duplicate_first; Demo.duplicate_second]
  ∧ omap (storage_to_inject (H:=Sim.builtins))
      [Demo.duplicate_first; Demo.duplicate_second]
    = [VArr [Demo.item "k" "1"]; VArr [Demo.item "k" "2"]]
  ∧ let run := Demo.load Demo.plain Demo.state_json
                 (Demo.world_with Demo.duplicate_text) in
    omap evaluated run.2
    `prefix_of` omap (storage_to_inject (H:=Sim.builtins))
                  [Demo.duplicate_first; Demo.duplicate_second]
    ∧ (∀ msg, run.1.1 = Ok msg ->
         omap evaluated run.2
         = omap (storage_to_inject (H:=Sim.builtins))
             [Demo.duplicate_first; Demo.duplicate_second]
         ∧ length (omap url_read run.2)
           = length [Demo.duplicate_first; Demo.duplicate_second]).
Proof.
  assert (Sim.readFile (js "/state.json") (Demo.disk_with Demo.duplicate_text)
          = Ok Demo.duplicate_text) as Hread by by_evaluation.
  assert (Sim.parse Demo.duplicate_text = Some Demo.duplicate_value) as Hparse
    by by_evaluation.
  assert (entries_of Demo.duplicate_value
          = Ok [Demo.duplicate_first; Demo.duplicate_second]) as Hentries
    by by_evaluation.
  split_and!; [exact Hread|exact Hparse|exact Hentries|by_evaluation|].
  exact (@load_injects_entries_in_order Sim.builtins Sim.tab Sim.files
           (@Sim.browser Sim.builtins Demo.plain) Sim.filesystem Demo.state_json
           (Demo.world_with Demo.duplicate_text) Demo.duplicate_text
           Demo.duplicate_value _ Hread Hparse Hentries).
Defined.

(** The example with a [version] and a [sessionStorage] runs as the
    example does. *)
Lemma load_ignores_other_fields_witness :
  Sim.readFile (js "/state.json") (Demo.disk_with Demo.example_text)
    = Ok Demo.example_text
  ∧ Sim.readFile (js "/state.json") (Demo.disk_with Demo.annotated_text)
    = Ok Demo.annotated_text
  ∧ Sim.parse Demo.example_text = Some Demo.example_value
  ∧ Sim.parse Demo.annotated_text = Some Demo.annotated_value
  ∧ Get Demo.example_value P_cookies = Get Demo.annotated_value P_cookies
  ∧ Get Demo.example_value P_origins = Ok (VArr [Demo.example_entry])
  ∧ Get Demo.annotated_value P_origins = Ok (VArr [Demo.annotated_entry])
  ∧ same_origins (VArr [Demo.example_entry]) (VArr [Demo.annotated_entry])
  ∧ let run1 := Demo.load Demo.plain Demo.state_json
                  (World Demo.blank (Demo.disk_with Demo.example_text)) in
    let run2 := Demo.load Demo.plain Demo.state_json
                  (World Demo.blank (Demo.disk_with Demo.annotated_text)) in
    run1.1.1 = run2.1.1 ∧ session run1.1.2 = session run2.1.2 ∧ run1.2 = run2.2.
Proof.
  assert (Sim.readFile (js "/state.json") (Demo.disk_with Demo.example_text)
          = Ok Demo.example_text) as Hread1 by by_evaluation.
  assert (Sim.readFile (js "/state.json") (Demo.disk_with Demo.annotated_text)
          = Ok Demo.annotated_text) as Hread2 by by_evaluation.
  assert (Sim.parse Demo.example_text = Some Demo.example_value) as Hparse1
    by by_evaluation.
  assert (Sim.parse Demo.annotated_text = Some Demo.annotated_value) as Hparse2
    by by_evaluation.
  assert (same_origins (VArr [Demo.example_entry]) (VArr [Demo.annotated_entry]))
    as Hsame.
  { right. eexists _, _. split_and!; [reflexivity..|].
    constructor; [|constructor]. split; reflexivity. }
  split_and!; [exact Hread1|exact Hread2|exact Hparse1|exact Hparse2
              |reflexivity|reflexivity|reflexivity|exact Hsame|].
  exact (@load_ignores_other_fields Sim.builtins Sim.tab Sim.files
           (@Sim.browser Sim.builtins Demo.plain) Sim.filesystem Demo.state_json
           Demo.blank (Demo.disk_with Demo.example_text)
           (Demo.disk_with Demo.annotated_text)
           Demo.example_text Demo.annotated_text
           Demo.example_value Demo.annotated_value _ _
           Hread1 Hread2 Hparse1 Hparse2 eq_refl eq_refl eq_refl Hsame).
Defined.

(** The save tool, made with the flag set. *)
Lemma storage_tools_keep_to_their_type_witness :
  Demo.save_tool Demo.plain true ∈ Demo.tools Demo.plain true
  ∧ type (schema (Demo.save_tool Demo.plain true)) = ReadOnly
  ∧ ∃ r,
      handle (Demo.save_tool Demo.plain true) {| hasCurrentTab := true |} Demo.deep
      = Ok r
      ∧ captureSnapshot r = false
      ∧ waitForNetwork r = false
      ∧ ∀ w, session (action r w).1.2 = session w
             ∧ Forall (λ e, ¬ session_mutating (ev_call e)) (action r w).2.
Proof.
  assert (Demo.save_tool Demo.plain true ∈ Demo.tools Demo.plain true) as Hin
    by apply list_elem_of_here.
  split_and!; [exact Hin|reflexivity|].
  destruct (proj2 (@storage_tools_keep_to_their_type Sim.builtins Sim.tab Sim.files
                     (@Sim.browser Sim.builtins Demo.plain) Sim.filesystem true _
                     {| hasCurrentTab := true |} Demo.deep Hin) eq_refl)
    as (r & Hr & Hreadonly & _).
  exists r. split; [exact Hr|]. exact (Hreadonly eq_refl).
Defined.

(** [cookies] is the string [abc]: it is handed to [addCookies]. *)
Lemma load_adds_cookies_iff_the_test_passes_witness :
  Sim.readFile (js "/state.json") (Demo.disk_with Demo.cookies_string_text)
    = Ok Demo.cookies_string_text
  ∧ Sim.parse Demo.cookies_string_text
    = Some (VObj [(js "cookies", VStr (js "abc"))])
  ∧ Get (VObj [(js "cookies", VStr (js "abc"))]) P_cookies = Ok (VStr (js "abc"))
  ∧ nonempty_guard (H:=Sim.builtins) (VStr (js "abc")) = Ok true
  ∧ ∃ rest,
      (Demo.load Demo.plain Demo.state_json
         (Demo.world_with Demo.cookies_string_text)).2
      = Demo.read_ok
        :: Event (CAddCookies (VStr (js "abc"))) Demo.blank
             (outcome (Sim.addCookies Demo.plain (VStr (js "abc")) Demo.blank).1)
        :: rest
      ∧ Forall (λ e, ∀ c, ev_call e ≠ CAddCookies c) rest.
Proof.
  assert (Sim.readFile (js "/state.json") (Demo.disk_with Demo.cookies_string_text)
          = Ok Demo.cookies_string_text) as Hread by by_evaluation.
  assert (Sim.parse Demo.cookies_string_text
          = Some (VObj [(js "cookies", VStr (js "abc"))])) as Hparse by by_evaluation.
  assert (nonempty_guard (H:=Sim.builtins) (VStr (js "abc")) = Ok true) as Hguard
    by by_evaluation.
  split_and!; [exact Hread|exact Hparse|reflexivity|exact Hguard|].
  exact (proj1 (@load_adds_cookies_iff_the_test_passes Sim.builtins Sim.tab Sim.files
                  (@Sim.browser Sim.builtins Demo.plain) Sim.filesystem
                  Demo.state_json (Demo.world_with Demo.cookies_string_text)
                  Demo.cookies_string_text _ (VStr (js "abc"))
                  Hread Hparse eq_refl) Hguard).
Defined.

(** The key [k] twice, then another key. *)
Lemma setItems_last_item_wins_witness :
  setItems (H:=Sim.builtins) (VArr ([Demo.k1] ++ Demo.k2 :: [Demo.j3])) ∅
    = (Ok (), Demo.area [("k", "2"); ("j", "3")])
  ∧ setItem_args (H:=Sim.builtins) Demo.k2 = Ok (js "k", js "2")
  ∧ (∀ x k' v', x ∈ [Demo.j3] -> setItem_args (H:=Sim.builtins) x = Ok (k', v') ->
                k' ≠ js "k")
  ∧ Demo.area [("k", "2"); ("j", "3")] !! js "k" = Some (js "2").
Proof.
  assert (setItems (H:=Sim.builtins) (VArr ([Demo.k1] ++ Demo.k2 :: [Demo.j3])) ∅
          = (Ok (), Demo.area [("k", "2"); ("j", "3")])) as Hrun by by_evaluation.
  assert (setItem_args (H:=Sim.builtins) Demo.k2 = Ok (js "k", js "2")) as Hargs
    by by_evaluation.
  assert (∀ x k' v', x ∈ [Demo.j3] ->
                     setItem_args (H:=Sim.builtins) x = Ok (k', v') -> k' ≠ js "k")
    as Hafter.
  { intros x k' v' Hx%list_elem_of_singleton Hset. subst x.
    vm_compute in Hset. injection Hset as <- _. discriminate. }
  split_and!; [exact Hrun|exact Hargs|exact Hafter|].
  exact (@setItems_last_item_wins Sim.builtins [Demo.k1] [Demo.j3] Demo.k2
           (js "k") (js "2") ∅ _ Hrun Hargs Hafter).
Defined.

(** The key [j] is as before, although the function throws on [null]. *)
Lemma setItems_keeps_other_keys_witness :
  setItems (H:=Sim.builtins) (VArr [Demo.k1; VNull]) (Demo.area [("j", "3")])
    = (Err TypeError, Demo.area [("k", "1"); ("j", "3")])
  ∧ (∀ items x k' v',
       iterate (VArr [Demo.k1; VNull]) = Ok items -> x ∈ items ->
       setItem_args (H:=Sim.builtins) x = Ok (k', v') -> k' ≠ js "j")
  ∧ Demo.area [("k", "1"); ("j", "3")] !! js "j" = Demo.area [("j", "3")] !! js "j".
Proof.
  assert (setItems (H:=Sim.builtins) (VArr [Demo.k1; VNull]) (Demo.area [("j", "3")])
          = (Err TypeError, Demo.area [("k", "1"); ("j", "3")])) as Hrun
    by by_evaluation.
  assert (∀ items x k' v',
            iterate (VArr [Demo.k1; VNull]) = Ok items -> x ∈ items ->
            setItem_args (H:=Sim.builtins) x = Ok (k', v') -> k' ≠ js "j") as Hother.
  { intros items x k' v' [= <-] Hx Hset.
    apply elem_of_cons in Hx as [->|Hx%list_elem_of_singleton].
    - vm_compute in Hset. injection Hset as <- _. discriminate.
    - subst x. discriminate Hset. }
  split_and!; [exact Hrun|exact Hother|].
  exact (@setItems_keeps_other_keys Sim.builtins (VArr [Demo.k1; VNull])
           (Demo.area [("j", "3")]) _ (Err TypeError) (js "j") Hrun Hother).
Defined.

(** A [null] between two items. *)
Lemma setItems_keeps_writes_before_a_failure_witness :
  setItems (H:=Sim.builtins) (VArr [Demo.k1]) ∅ = (Ok (), Demo.area [("k", "1")])
  ∧ setItem_args (H:=Sim.builtins) VNull = Err TypeError
  ∧ TypeError = TypeError
  ∧ setItems (H:=Sim.builtins) (VArr ([Demo.k1] ++ VNull :: [Demo.j3])) ∅
    = (Err TypeError, Demo.area [("k", "1")]).
Proof.
  assert (setItems (H:=Sim.builtins) (VArr [Demo.k1]) ∅
          = (Ok (), Demo.area [("k", "1")])) as Hrun by by_evaluation.
  split_and!; [exact Hrun|reflexivity|..];
    apply (@setItems_keeps_writes_before_a_failure Sim.builtins [Demo.k1] [Demo.j3]
             VNull ∅ (Demo.area [("k", "1")]) TypeError Hrun eq_refl).
Defined.

(** The same two items again. *)
Lemma setItems_is_idempotent_witness :
  setItems (H:=Sim.builtins) (VArr [Demo.k1; Demo.k2]) ∅
    = (Ok (), Demo.area [("k", "2")])
  ∧ setItems (H:=Sim.builtins) (VArr [Demo.k1; Demo.k2]) (Demo.area [("k", "2")])
    = (Ok (), Demo.area [("k", "2")]).
Proof.
  assert (setItems (H:=Sim.builtins) (VArr [Demo.k1; Demo.k2]) ∅
          = (Ok (), Demo.area [("k", "2")])) as Hrun by by_evaluation.
  split; [exact Hrun|].
  exact (@setItems_is_idempotent Sim.builtins (VArr [Demo.k1; Demo.k2]) ∅ _ Hrun).
Defined.

(** The item [{}] sets the key [undefined]. *)
Lemma setItems_writes_a_key_for_every_item_witness :
  setItems (H:=Sim.builtins) (VArr [Demo.k1; VObj []]) ∅
    = (Ok (), Demo.area [("k", "1"); ("undefined", "undefined")])
  ∧ VObj [] ∈ [Demo.k1; VObj []]
  ∧ ∃ k v,
      setItem_args (H:=Sim.builtins) (VObj []) = Ok (k, v)
      ∧ is_Some (Demo.area [("k", "1"); ("undefined", "undefined")] !! k)
      ∧ (Get (VObj []) P_name = Ok VUndefined -> k = js "undefined")
      ∧ (Get (VObj []) P_value = Ok VUndefined -> v = js "undefined").
Proof.
  assert (setItems (H:=Sim.builtins) (VArr [Demo.k1; VObj []]) ∅
          = (Ok (), Demo.area [("k", "1"); ("undefined", "undefined")])) as Hrun
    by by_evaluation.
  assert (VObj [] ∈ [Demo.k1; VObj []]) as Hin
    by apply list_elem_of_further, list_elem_of_here.
  split_and!; [exact Hrun|exact Hin|].
  exact (@setItems_writes_a_key_for_every_item Sim.builtins [Demo.k1; VObj []] ∅ _
           (VObj []) Hrun Hin).
Defined.

(** Two entries for the same origin, one navigation. *)
Lemma load_navigates_to_entry_origins_in_order_witness :
  Sim.readFile (js "/state.json") (Demo.disk_with Demo.duplicate_text)
    = Ok Demo.duplicate_text
  ∧ Sim.parse Demo.duplicate_text = Some Demo.duplicate_value
  ∧ entries_of Demo.duplicate_value
    = Ok [Demo.duplicate_first; Demo.duplicate_second]
  ∧ omap entry_origin [Demo.duplicate_first; Demo.duplicate_second]
    = [VStr (js "https://a.test"); VStr (js "https://a.test")]
  ∧ omap navigated
      (Demo.load Demo.plain Demo.state_json (Demo.world_with Demo.duplicate_text)).2
    = [VStr (js "https://a.test")]
  ∧ omap navigated
      (Demo.load Demo.plain Demo.state_json (Demo.world_with Demo.duplicate_text)).2
    `sublist_of` omap entry_origin [Demo.duplicate_first; Demo.duplicate_second].
Proof.
  assert (Sim.readFile (js "/state.json") (Demo.disk_with Demo.duplicate_text)
          = Ok Demo.duplicate_text) as Hread by by_evaluation.
  assert (Sim.parse Demo.duplicate_text = Some Demo.duplicate_value) as Hparse
    by by_evaluation.
  assert (entries_of Demo.duplicate_value
          = Ok [Demo.duplicate_first; Demo.duplicate_second]) as Hentries
    by by_evaluation.
  split_and!; [exact Hread|exact Hparse|exact Hentries|reflexivity|by_evaluation|].
  exact (@load_navigates_to_entry_origins_in_order Sim.builtins Sim.tab Sim.files
           (@Sim.browser Sim.builtins Demo.plain) Sim.filesystem Demo.state_json
           (Demo.world_with Demo.duplicate_text) Demo.duplicate_text
           Demo.duplicate_value _ Hread Hparse Hentries).
Defined.

(** ** Runs for the listings and for duplicate origins *)

(** The listings of both handlers for a path with a quote in it: the
    path stands in the code text as it was given, and in the listing of
    the save tool its quote ends the string literal. *)
Lemma path_is_spliced_into_code_strings :
  code <$> Demo.save_handle Demo.plain Demo.with_tab Demo.quoted
  = Ok [ js "// Save storage state to /tmp/o'brien.json";
         js "await context.storageState({ path: '/tmp/o'brien.json' });" ]
  ∧ code <$> Demo.load_handle Demo.plain true Demo.with_tab Demo.quoted
    = Ok [ js "// Load storage state from /tmp/o'brien.json";
           js "// Note: In Playwright, storage state is typically loaded when creating a new context" ].
Proof. split; reflexivity. Qed.

Lemma evaluated_code_is_fixed_and_listings_splice_the_path_witness :
  hasCurrentTab Demo.with_tab = true
  ∧ ∃ rl rs,
      Demo.load_handle Demo.plain true Demo.with_tab Demo.quoted = Ok rl
      ∧ Demo.save_handle Demo.plain Demo.with_tab Demo.quoted = Ok rs
      ∧ (∀ w e script arg,
           e ∈ (action rl w).2 ->
           ev_call e = CEvaluate script arg ->
           script = ScriptFunction SetItems
           ∧ ∃ text v entries x,
               Sim.readFile (js "/tmp/o'brien.json") (disk w) = Ok text
               ∧ Sim.parse text = Some v
               ∧ entries_of v = Ok entries
               ∧ x ∈ entries
               ∧ Get x P_localStorage = Ok arg)
      ∧ (∀ w e, e ∈ (action rs w).2 -> ¬ is_evaluate e)
      ∧ code rl
        = [ js "// Load storage state from " ++ js "/tmp/o'brien.json";
            js "// Note: In Playwright, storage state is typically loaded when creating a new context" ]
      ∧ code rs
        = [ js "// Save storage state to " ++ js "/tmp/o'brien.json";
            js "await context.storageState({ path: '" ++ js "/tmp/o'brien.json"
            ++ js "' });" ].
Proof.
  split; [reflexivity|].
  exact (@evaluated_code_is_fixed_and_listings_splice_the_path Sim.builtins Sim.tab
           Sim.files (@Sim.browser Sim.builtins Demo.plain) Sim.filesystem true
           Demo.with_tab Demo.quoted eq_refl).
Defined.

